(** * HubSpot CRM MCP server: tool dispatch and response shaping

    A shallow embedding of [api/mcp.ts]: the JSON-RPC router ([handler]),
    the tool dispatcher ([handleTool]), the remote client ([hubspot]) and
    the result shaping functions ([filterResults], [truncateProperties],
    [compactResult], [compactResults]), followed by the properties of the
    specification that were checked against them.

    Conventions of the embedding.
    - A JavaScript value is a [JsVal]; objects are finite maps from
      property names to values (property order plays no role below).
    - A JavaScript number is a [JsNum]: NaN, the two infinities, or a
      finite value held as a rational (every finite double is one; the
      code only compares numbers and takes minima, which is exact).
    - A string is a sequence of UTF-16 code units; the model carries the
      code units below 256 (one [ascii] each).
    - What the platform supplies (number printing and parsing,
      [JSON.stringify], form encoding) is a field of [Platform]; the
      process environment, the clock and the remote CRM are fields of
      [World].
    - The remote CRM is a black box that answers a request by the
      request alone. An [async] function is a computation in [M], which
      threads the log of the requests made and may throw; the concurrent
      fan-out of [hubspot_get_engagements] is run one type after the
      other, which fixes the order of its entries in the log and, the
      remote being a function of the request, nothing else. *)

From Stdlib Require Import QArith Qround Ascii String.
From stdpp Require Import gmap strings list fin_maps pretty.

Set Warnings "-register-all".

(** ** JavaScript values *)

Inductive JsNum :=
| NaN
| PosInf
| NegInf
| Fin (q : Q).

Inductive JsVal :=
| JUndefined
| JNull
| JBool (b : bool)
| JNum (n : JsNum)
| JStr (s : string)
| JArr (l : list JsVal)
| JObj (m : gmap string JsVal).

(** A [Record<string, unknown>]. *)
Abbreviation Rec := (gmap string JsVal).

Definition num (z : Z) : JsNum := Fin (inject_Z z).
Definition jnum (z : Z) : JsVal := JNum (num z).
Definition jlen (n : nat) : JsNum := num (Z.of_nat n).

(** [obj [(k1, v1); ...]] is the object literal [{k1: v1, ...}]. *)
Definition obj (fields : list (string * JsVal)) : Rec := list_to_map fields.

(** Truthiness, as tested by [if], [&&], [||], [!] and [Boolean()]. *)
Definition num_truthy (n : JsNum) : bool :=
  match n with
  | NaN => false
  | PosInf | NegInf => true
  | Fin q => negb (Qeq_bool q 0)
  end.

Definition truthy (v : JsVal) : bool :=
  match v with
  | JUndefined | JNull => false
  | JBool b => b
  | JNum n => num_truthy n
  | JStr s => negb (String.eqb s EmptyString)
  | JArr _ | JObj _ => true
  end.

(** [a || b] *)
Definition jor (a b : JsVal) : JsVal := if truthy a then a else b.

(** [Math.min(a, b)] *)
Definition num_min (a b : JsNum) : JsNum :=
  match a, b with
  | NaN, _ | _, NaN => NaN
  | NegInf, _ | _, NegInf => NegInf
  | PosInf, y => y
  | x, PosInf => x
  | Fin p, Fin q => if Qle_bool p q then a else b
  end.

(** [a > b] on numbers. *)
Definition num_gt (a b : JsNum) : bool :=
  match a, b with
  | NaN, _ | _, NaN => false
  | PosInf, PosInf => false
  | PosInf, _ => true
  | _, PosInf => false
  | NegInf, _ => false
  | Fin _, NegInf => true
  | Fin p, Fin q => negb (Qle_bool p q)
  end.

(** [v === 0] *)
Definition is_zero (v : JsVal) : bool :=
  match v with
  | JNum (Fin q) => Qeq_bool q 0
  | _ => false
  end.

(** [v === s] for a string literal [s] *)
Definition is_string (v : JsVal) (s : string) : bool :=
  match v with JStr t => String.eqb t s | _ => false end.

(** [Array.isArray(v)] *)
Definition isArray (v : JsVal) : bool :=
  match v with JArr _ => true | _ => false end.

(** Reading property [k] of a record, [undefined] when it is absent. *)
Definition field (r : Rec) (k : string) : JsVal := default JUndefined (r !! k).

(** Reading property [k] of a value that is neither [null] nor
    [undefined]: only objects carry the properties read by this program. *)
Definition getProp (v : JsVal) (k : string) : JsVal :=
  match v with
  | JObj m => field m k
  | _ => JUndefined
  end.

(** The index of the end of [substring(0, n)] and of [slice(0, n)]. *)
Definition substring_end (n : JsNum) (len : nat) : nat :=
  match n with
  | NaN | NegInf => 0
  | PosInf => len
  | Fin q => if Qle_bool q 0 then 0 else Nat.min (Z.to_nat (Qfloor q)) len
  end.

Definition slice_end (n : JsNum) (len : nat) : nat :=
  match n with
  | NaN | NegInf => 0
  | PosInf => len
  | Fin q =>
      let t := if Qle_bool 0 q then Qfloor q else Qceiling q in
      if (t <? 0)%Z then Z.to_nat (Z.of_nat len + t) else Nat.min (Z.to_nat t) len
  end.

(** ** Strings *)

(** [toLowerCase] on code units below 256: the upper-case letters are
    A-Z, U+00C0-U+00D6 and U+00D8-U+00DE, each 32 below its lower case. *)
Definition lower_unit (c : ascii) : ascii :=
  let n := nat_of_ascii c in
  if ((65 <=? n) && (n <=? 90)
      || (192 <=? n) && (n <=? 214)
      || (216 <=? n) && (n <=? 222))%nat
  then ascii_of_nat (n + 32) else c.

Fixpoint toLowerCase (s : string) : string :=
  match s with
  | EmptyString => EmptyString
  | String c s' => String (lower_unit c) (toLowerCase s')
  end.

(** [s.includes(t)] *)
Fixpoint includes (s t : string) : bool :=
  String.prefix t s ||
  match s with
  | EmptyString => false
  | String _ s' => includes s' t
  end.

(** [xs.join(sep)] on strings. *)
Fixpoint join (sep : string) (xs : list string) : string :=
  match xs with
  | [] => EmptyString
  | [x] => x
  | x :: rest => x +:+ sep +:+ join sep rest
  end.

(** ** The platform *)

Record Platform := {
  (** [String(n)] for a number *)
  numberToString : JsNum -> string;
  (** [Number(s)] for a string *)
  stringToNumber : string -> JsNum;
  (** [JSON.stringify(v, null, 2)] *)
  jsonStringify : JsVal -> string;
  (** how [URLSearchParams] writes one name or one value *)
  formEncode : string -> string;
}.

Section Conversions.
Context (P : Platform).

(** [String(v)] and the conversion made by a template literal. *)
Fixpoint toStr (v : JsVal) : string :=
  match v with
  | JUndefined => "undefined"
  | JNull => "null"
  | JBool true => "true"
  | JBool false => "false"
  | JNum n => numberToString P n
  | JStr s => s
  | JArr l =>
      join "," (map (fun e => match e with
                              | JUndefined | JNull => EmptyString
                              | _ => toStr e
                              end) l)
  | JObj _ => "[object Object]"
  end.

(** [Number(v)] *)
Definition toNumber (v : JsVal) : JsNum :=
  match v with
  | JUndefined => NaN
  | JNull => num 0
  | JBool true => num 1
  | JBool false => num 0
  | JNum n => n
  | JStr s => stringToNumber P s
  | JArr _ | JObj _ => stringToNumber P (toStr v)
  end.

(** [Number(v) || d] *)
Definition numberOr (v : JsVal) (d : JsNum) : JsNum :=
  let n := toNumber v in if num_truthy n then n else d.
End Conversions.

(** ** Response shaping *)

Definition DEFAULT_MAX_RESULTS : JsNum := num 20.
Definition DEFAULT_MAX_PROPERTY_LENGTH : JsNum := num 500.

Record FilterOptions := {
  excludeCompanies : option (list string);
  excludeJobTitles : option (list string);
}.

Record Filtered := {
  results : list Rec;
  excluded : nat;
}.

Section Shaping.
Context (P : Platform).

(** The callback of [results.filter] in [filterResults]. *)
Definition keepItem (excludeCompaniesLower excludeJobTitlesLower : list string)
    (item : Rec) : bool :=
  let props := field item "properties" in
  if negb (truthy props) then true
  else
    let company :=
      toLowerCase (toStr P (jor (getProp props "company") (JStr EmptyString))) in
    if negb (String.eqb company EmptyString)
       && existsb (fun exc => includes company exc) excludeCompaniesLower
    then false
    else
      let jobtitle :=
        toLowerCase (toStr P (jor (getProp props "jobtitle") (JStr EmptyString))) in
      if negb (String.eqb jobtitle EmptyString)
         && existsb (fun exc => includes jobtitle exc) excludeJobTitlesLower
      then false
      else true.

Definition filterResults (results : list Rec) (options : FilterOptions) : Filtered :=
  let excludeCompanies := default [] (excludeCompanies options) in
  let excludeJobTitles := default [] (excludeJobTitles options) in
  if (length excludeCompanies =? 0)%nat && (length excludeJobTitles =? 0)%nat
  then {| results := results; excluded := 0 |}
  else
    let excludeCompaniesLower := map toLowerCase excludeCompanies in
    let excludeJobTitlesLower := map toLowerCase excludeJobTitles in
    let filtered := List.filter (keepItem excludeCompaniesLower excludeJobTitlesLower) results in
    {| results := filtered; excluded := length results - length filtered |}.
End Shaping.

(** [Object.entries(v)] for an object or an array. *)
Definition entries (v : JsVal) : list (string * JsVal) :=
  match v with
  | JObj m => map_to_list m
  | JArr l => imap (fun i e => (pretty i, e)) l
  | _ => []
  end.

Definition TRUNCATED : string := "...[truncated]".

(** The body of the loop of [truncateProperties]. *)
Definition truncateValue (maxLength : JsNum) (value : JsVal) : JsVal :=
  match value with
  | JStr s =>
      if num_gt (jlen (String.length s)) maxLength
      then JStr (String.substring 0 (substring_end maxLength (String.length s)) s +:+ TRUNCATED)
      else value
  | _ => value
  end.

(** [result[key] = value] on an object made by an object literal. The
    key [__proto__] names the accessor inherited from [Object.prototype]:
    assigning to it sets no own property (it replaces the prototype when
    the value is an object or [null], which no code of this program
    reads, and does nothing otherwise). [JSON.parse] does create such an
    own key, so a source object can carry it. *)
Definition assign (key : string) (value : JsVal) (result : Rec) : Rec :=
  if String.eqb key "__proto__" then result else <[key := value]> result.

Definition truncateProperties (o : JsVal) (maxLength : JsNum) : Rec :=
  fold_left (fun result kv => assign kv.1 (truncateValue maxLength kv.2) result)
            (entries o) ∅.

Record CompactOptions := {
  maxPropertyLength : option JsNum;
  includeMetadata : option bool;
}.

(** [typeof v === 'object'] *)
Definition is_object (v : JsVal) : bool :=
  match v with JNull | JArr _ | JObj _ => true | _ => false end.

(** [if (c) r[k] = v] *)
Definition setIf (c : bool) (k : string) (v : JsVal) (r : Rec) : Rec :=
  if c then <[k := v]> r else r.

Definition compactResult (item : Rec) (options : CompactOptions) : Rec :=
  let maxPropertyLength := default DEFAULT_MAX_PROPERTY_LENGTH (maxPropertyLength options) in
  let includeMetadata := default false (includeMetadata options) in
  let result : Rec := {["id" := field item "id"]} in
  let result :=
    setIf (truthy (field item "properties") && is_object (field item "properties"))
          "properties" (JObj (truncateProperties (field item "properties") maxPropertyLength))
          result in
  if includeMetadata then
    let result := setIf (truthy (field item "createdAt")) "createdAt" (field item "createdAt") result in
    let result := setIf (truthy (field item "updatedAt")) "updatedAt" (field item "updatedAt") result in
    let result := setIf (match field item "archived" with JUndefined => false | _ => true end)
                        "archived" (field item "archived") result in
    let result := setIf (truthy (field item "url")) "url" (field item "url") result in
    result
  else result.

Record Page := {
  page_results : list Rec;
  page_total : JsVal;
  page_paging : JsVal;
}.

Definition compactResults (data : Page) (options : CompactOptions) : Page :=
  {| page_total := page_total data;
     page_results := map (fun item => compactResult item options) (page_results data);
     page_paging := page_paging data |}.

(** ** The remote CRM and the effects of a tool call *)

(** One request made by [fetch]: the path below [HUBSPOT_API], the HTTP
    method, and the body before it is serialised. *)
Record Call := {
  call_path : string;
  call_method : string;
  call_body : option JsVal;
}.

(** What [fetch] gives back: a rejection, a response that is not [ok], or
    an [ok] response whose [json()] is a value or throws. *)
Inductive Response :=
| FetchRejected (message : string)
| HttpFailure (status : nat) (text : string)
| HttpSuccess (json : string + JsVal).

Record World := {
  platform : Platform;
  (** [process.env.HUBSPOT_ACCESS_TOKEN] *)
  HUBSPOT_ACCESS_TOKEN : option string;
  (** the remote system, a black box answering each request *)
  remote : Call -> Response;
  (** [new Date().toISOString()] *)
  now : string;
  (** [new Date(Date.now() + 24 * 60 * 60 * 1000).toISOString()] *)
  tomorrow : string;
}.

(** A computation that may throw an [Error] (kept as its message) and
    that appends the requests it makes to a log. *)
Definition M (A : Type) : Type := list Call -> (string + A) * list Call.

Definition ret {A} (a : A) : M A := fun log => (inr a, log).

Definition throw {A} (message : string) : M A := fun log => (inl message, log).

Definition bind {A B} (m : M A) (k : A -> M B) : M B :=
  fun log =>
    match m log with
    | (inl e, log') => (inl e, log')
    | (inr a, log') => k a log'
    end.

(** [try { m } catch (error) { h }] *)
Definition catch {A} (m : M A) (h : M A) : M A :=
  fun log =>
    match m log with
    | (inl _, log') => h log'
    | r => r
    end.

Notation "x <- m ;; k" := (bind m (fun x => k))
  (at level 100, m at next level, right associativity).
Notation "m ;;; k" := (bind m (fun _ => k))
  (at level 100, right associativity).

(** [if (c) await m] *)
Definition when (c : bool) (m : M JsVal) : M unit :=
  if c then (m ;;; ret tt) else ret tt.

(** [for each x of xs: await f x], left to right. *)
Fixpoint mapM {A B} (f : A -> M B) (xs : list A) : M (list B) :=
  match xs with
  | [] => ret []
  | x :: rest => y <- f x ;; ys <- mapM f rest ;; ret (y :: ys)
  end.

(** [v.k], which throws a [TypeError] when [v] is [null] or [undefined]. *)
Definition member (v : JsVal) (k : string) : M JsVal :=
  match v with
  | JUndefined => throw ("Cannot read properties of undefined (reading '" +:+ k +:+ "')")
  | JNull => throw ("Cannot read properties of null (reading '" +:+ k +:+ "')")
  | _ => ret (getProp v k)
  end.

(** The receiver of [expr.method(...)] for an array method. *)
Definition arrayFor (expr method : string) (v : JsVal) : M (list JsVal) :=
  match v with
  | JArr l => ret l
  | JUndefined => throw ("Cannot read properties of undefined (reading '" +:+ method +:+ "')")
  | JNull => throw ("Cannot read properties of null (reading '" +:+ method +:+ "')")
  | _ => throw (expr +:+ "." +:+ method +:+ " is not a function")
  end.

(** The receiver of [c.toLowerCase()]. *)
Definition stringFor (var : string) (v : JsVal) : M string :=
  match v with
  | JStr s => ret s
  | JUndefined => throw "Cannot read properties of undefined (reading 'toLowerCase')"
  | JNull => throw "Cannot read properties of null (reading 'toLowerCase')"
  | _ => throw (var +:+ ".toLowerCase is not a function")
  end.

(** An element of a result list as a record; [reading] is the first
    property the code reads from it. *)
Definition recordFor (reading : string) (v : JsVal) : M Rec :=
  match v with
  | JObj m => ret m
  | JUndefined | JNull => x <- member v reading ;; ret ∅
  | _ => ret ∅
  end.

Definition HUBSPOT_API : string := "https://api.hubapi.com".
Definition MCP_VERSION : string := "2024-11-05".
Definition SERVER_NAME : string := "hubspot-crm-mcp".
Definition SERVER_VERSION : string := "1.3.0".

(** [hubspot(path, method, body)] *)
Definition hubspot (w : World) (path : string) (method : string) (body : option JsVal)
  : M JsVal :=
  match HUBSPOT_ACCESS_TOKEN w with
  | None | Some EmptyString => throw "HUBSPOT_ACCESS_TOKEN not configured"
  | Some _ =>
      fun log =>
        let call := {| call_path := path; call_method := method;
                       call_body := match body with
                                    | Some b => if truthy b then Some b else None
                                    | None => None
                                    end |} in
        let log' := log ++ [call] in
        match remote w call with
        | FetchRejected message => (inl message, log')
        | HttpFailure status text =>
            (inl ("HubSpot API " +:+ pretty status +:+ ": " +:+ text), log')
        | HttpSuccess json =>
            if String.eqb method "DELETE" then (inr (JObj (obj [("success", JBool true)])), log')
            else match json with
                 | inl message => (inl message, log')
                 | inr v => (inr v, log')
                 end
        end
  end.

(** ** Argument handling shared by the tools *)

(** [URLSearchParams] *)
Definition params_set (k v : string) (ps : list (string * string)) : list (string * string) :=
  if existsb (fun p => String.eqb p.1 k) ps
  then (fix go (seen : bool) (l : list (string * string)) :=
          match l with
          | [] => []
          | p :: rest =>
              if String.eqb p.1 k
              then (if seen then go true rest else (k, v) :: go true rest)
              else p :: go seen rest
          end) false ps
  else ps ++ [(k, v)].

Definition params_append (k v : string) (ps : list (string * string)) : list (string * string) :=
  ps ++ [(k, v)].

Definition params_toString (P : Platform) (ps : list (string * string)) : string :=
  join "&" (map (fun p => formEncode P p.1 +:+ "=" +:+ formEncode P p.2) ps).

Section Arguments.
Context (w : World).
Let P := platform w.

(** [Math.min(Number(args.limit) || dflt, max)] *)
Definition limitArg (args : JsVal) (dflt max : JsNum) : JsNum :=
  num_min (numberOr P (getProp args "limit") dflt) max.

(** [args.maxPropertyLength === 0 ? Infinity
      : (Number(args.maxPropertyLength) || DEFAULT_MAX_PROPERTY_LENGTH)] *)
Definition maxLenArg (args : JsVal) : JsNum :=
  if is_zero (getProp args "maxPropertyLength") then PosInf
  else numberOr P (getProp args "maxPropertyLength") DEFAULT_MAX_PROPERTY_LENGTH.

Definition compactOptionsArg (args : JsVal) : CompactOptions :=
  {| maxPropertyLength := Some (maxLenArg args);
     includeMetadata := Some (truthy (getProp args "includeMetadata")) |}.

(** [if (args.after) params.set('after', String(args.after))] *)
Definition afterParam (args : JsVal) (ps : list (string * string)) : list (string * string) :=
  if truthy (getProp args "after")
  then params_set "after" (toStr P (getProp args "after")) ps else ps.

(** [if (Array.isArray(args.properties))
       args.properties.forEach((p) => params.append('properties', String(p)))] *)
Definition propertiesParams (args : JsVal) (ps : list (string * string)) : list (string * string) :=
  match getProp args "properties" with
  | JArr l => fold_left (fun acc p => params_append "properties" (toStr P p) acc) l ps
  | _ => ps
  end.

(** [Array.isArray(args.k) ? args.k : []] *)
Definition arrayArg (args : JsVal) (k : string) : list JsVal :=
  match getProp args k with
  | JArr l => l
  | _ => []
  end.

Definition pageOf (data : JsVal) (results : list Rec) : Page :=
  {| page_results := results;
     page_total := getProp data "total";
     page_paging := getProp data "paging" |}.

Definition pageObject (p : Page) : Rec :=
  obj [("total", page_total p);
       ("results", JArr (map JObj (page_results p)));
       ("paging", page_paging p)].

(** The filtering and compaction that follow the request in
    [hubspot_list_contacts] and [hubspot_search_contacts]. *)
Definition shapeContacts (args : JsVal) (data : JsVal) : M JsVal :=
  dataResults <- member data "results" ;;
  let companiesArg := arrayArg args "excludeCompanies" in
  let jobTitlesArg := arrayArg args "excludeJobTitles" in
  filtered <-
    (if (length companiesArg =? 0)%nat && (length jobTitlesArg =? 0)%nat
     then
       items <- arrayFor "data.results" "map" dataResults ;;
       records <- mapM (recordFor "id") items ;;
       ret (filterResults P records
              {| excludeCompanies := Some []; excludeJobTitles := Some [] |})
     else
       companies <- mapM (stringFor "c") companiesArg ;;
       jobTitles <- mapM (stringFor "j") jobTitlesArg ;;
       items <- arrayFor "results" "filter" dataResults ;;
       records <- mapM (recordFor "properties") items ;;
       ret (filterResults P records
              {| excludeCompanies := Some companies; excludeJobTitles := Some jobTitles |})) ;;
  let compacted := compactResults (pageOf data (results filtered)) (compactOptionsArg args) in
  ret (JObj (<["_meta" :=
               if (0 <? excluded filtered)%nat
               then JObj (obj [("excluded", JNum (jlen (excluded filtered)));
                               ("excludeCompanies", JArr companiesArg);
                               ("excludeJobTitles", JArr jobTitlesArg)])
               else JUndefined]> (pageObject compacted))).

(** The compaction that follows the request in [hubspot_list_companies]
    and [hubspot_search_companies]: [compactResults] reads [data.total]
    before [data.results]. *)
Definition shapeCompanies (args : JsVal) (data : JsVal) : M JsVal :=
  member data "total" ;;;
  items <- arrayFor "data.results" "map" (getProp data "results") ;;
  records <- mapM (recordFor "id") items ;;
  ret (JObj (pageObject (compactResults (pageOf data records) (compactOptionsArg args)))).

(** The body of the search request of [hubspot_search_contacts] and
    [hubspot_search_companies]. *)
Definition searchBody (args : JsVal) : Rec :=
  let body : Rec := {["limit" := JNum (limitArg args DEFAULT_MAX_RESULTS (num 100))]} in
  let body := setIf (truthy (getProp args "query")) "query" (getProp args "query") body in
  let body := setIf (truthy (getProp args "filterGroups")) "filterGroups"
                    (getProp args "filterGroups") body in
  let body := setIf (isArray (getProp args "properties")) "properties"
                    (getProp args "properties") body in
  let body := setIf (isArray (getProp args "sorts")) "sorts" (getProp args "sorts") body in
  body.

(** [data.results.map((p) => ({ name: p.name, label: p.label, type: p.type,
    description: p.description }))] *)
Definition propertyRows (data : JsVal) : M JsVal :=
  dataResults <- member data "results" ;;
  items <- arrayFor "data.results" "map" dataResults ;;
  rows <- mapM (fun p =>
                  name <- member p "name" ;;
                  ret (JObj (obj [("name", name); ("label", getProp p "label");
                                  ("type", getProp p "type");
                                  ("description", getProp p "description")]))) items ;;
  ret (JArr rows).

(** [if (args.k) filters.push({ propertyName, operator, value: String(args.k) })] *)
Definition pushFilter (args : JsVal) (k propertyName operator : string)
    (filters : list JsVal) : list JsVal :=
  if truthy (getProp args k)
  then filters ++ [JObj (obj [("propertyName", JStr propertyName);
                              ("operator", JStr operator);
                              ("value", JStr (toStr P (getProp args k)))])]
  else filters.

(** [if (filters.length > 0) body.filterGroups = [{ filters }]] *)
Definition setFilterGroups (filters : list JsVal) (body : Rec) : Rec :=
  setIf (0 <? length filters)%nat "filterGroups"
        (JArr [JObj (obj [("filters", JArr filters)])]) body.

(** [if (args.k) properties.name = String(args.k)] *)
Definition setProperty (args : JsVal) (k name : string) (properties : Rec) : Rec :=
  setIf (truthy (getProp args k)) name (JStr (toStr P (getProp args k))) properties.

(** [data.results.map(t => ({ id: t.id, properties: t.properties }))] *)
Definition idAndProperties (expr : string) (dataResults : JsVal) : M (list JsVal) :=
  items <- arrayFor expr "map" dataResults ;;
  mapM (fun t => id <- member t "id" ;;
                 ret (JObj (obj [("id", id); ("properties", getProp t "properties")]))) items.

End Arguments.

(** ** The tools: the cases of the [switch] in [handleTool] *)

Section Tools.
Context (w : World).
Let P := platform w.

Definition propertiesOnly (args : JsVal) : option JsVal :=
  Some (JObj (obj [("properties", getProp args "properties")])).

Definition hubspot_list_contacts (args : JsVal) : M JsVal :=
  let params := params_set "limit"
                  (toStr P (JNum (limitArg w args DEFAULT_MAX_RESULTS (num 100)))) [] in
  let params := afterParam w args params in
  let params := propertiesParams w args params in
  data <- hubspot w ("/crm/v3/objects/contacts?" +:+ params_toString P params) "GET" None ;;
  shapeContacts w args data.

Definition hubspot_get_contact (args : JsVal) : M JsVal :=
  let params := propertiesParams w args [] in
  hubspot w ("/crm/v3/objects/contacts/" +:+ toStr P (getProp args "id") +:+ "?"
             +:+ params_toString P params) "GET" None.

Definition hubspot_create_contact (args : JsVal) : M JsVal :=
  hubspot w "/crm/v3/objects/contacts" "POST" (propertiesOnly args).

Definition hubspot_update_contact (args : JsVal) : M JsVal :=
  hubspot w ("/crm/v3/objects/contacts/" +:+ toStr P (getProp args "id")) "PATCH"
          (propertiesOnly args).

Definition hubspot_delete_contact (args : JsVal) : M JsVal :=
  hubspot w ("/crm/v3/objects/contacts/" +:+ toStr P (getProp args "id")) "DELETE" None.

Definition hubspot_search_contacts (args : JsVal) : M JsVal :=
  let body := searchBody w args in
  data <- hubspot w "/crm/v3/objects/contacts/search" "POST" (Some (JObj body)) ;;
  shapeContacts w args data.

Definition hubspot_list_companies (args : JsVal) : M JsVal :=
  let params := params_set "limit"
                  (toStr P (JNum (limitArg w args DEFAULT_MAX_RESULTS (num 100)))) [] in
  let params := afterParam w args params in
  let params := propertiesParams w args params in
  data <- hubspot w ("/crm/v3/objects/companies?" +:+ params_toString P params) "GET" None ;;
  shapeCompanies w args data.

Definition hubspot_get_company (args : JsVal) : M JsVal :=
  let params := propertiesParams w args [] in
  hubspot w ("/crm/v3/objects/companies/" +:+ toStr P (getProp args "id") +:+ "?"
             +:+ params_toString P params) "GET" None.

Definition hubspot_create_company (args : JsVal) : M JsVal :=
  hubspot w "/crm/v3/objects/companies" "POST" (propertiesOnly args).

Definition hubspot_update_company (args : JsVal) : M JsVal :=
  hubspot w ("/crm/v3/objects/companies/" +:+ toStr P (getProp args "id")) "PATCH"
          (propertiesOnly args).

Definition hubspot_delete_company (args : JsVal) : M JsVal :=
  hubspot w ("/crm/v3/objects/companies/" +:+ toStr P (getProp args "id")) "DELETE" None.

Definition hubspot_search_companies (args : JsVal) : M JsVal :=
  let body := searchBody w args in
  data <- hubspot w "/crm/v3/objects/companies/search" "POST" (Some (JObj body)) ;;
  shapeCompanies w args data.

Definition hubspot_contact_properties (args : JsVal) : M JsVal :=
  data <- hubspot w "/crm/v3/properties/contacts" "GET" None ;;
  propertyRows data.

Definition hubspot_company_properties (args : JsVal) : M JsVal :=
  data <- hubspot w "/crm/v3/properties/companies" "GET" None ;;
  propertyRows data.

Definition hubspot_list_owners (args : JsVal) : M JsVal :=
  let params := params_set "limit" (toStr P (JNum (limitArg w args (num 100) (num 500)))) [] in
  let params := afterParam w args params in
  let params := if truthy (getProp args "archived")
                then params_set "archived" "true" params else params in
  hubspot w ("/crm/v3/owners?" +:+ params_toString P params) "GET" None.

Definition hubspot_get_owner (args : JsVal) : M JsVal :=
  hubspot w ("/crm/v3/owners/" +:+ toStr P (getProp args "ownerId")) "GET" None.

(** *** Engagements *)

Definition allTypes : list string := ["notes"; "emails"; "calls"; "meetings"; "tasks"].

(** The [properties] requested by the batch read of one engagement type. *)
Definition engagementProperties (type : string) : list string :=
  if String.eqb type "notes" then ["hs_note_body"; "hs_timestamp"; "hs_createdate"]
  else if String.eqb type "emails"
  then ["hs_email_subject"; "hs_email_text"; "hs_email_direction"; "hs_timestamp";
        "hs_createdate"]
  else if String.eqb type "calls"
  then ["hs_call_title"; "hs_call_body"; "hs_call_duration"; "hs_call_direction";
        "hs_timestamp"; "hs_createdate"]
  else if String.eqb type "meetings"
  then ["hs_meeting_title"; "hs_meeting_body"; "hs_meeting_start_time";
        "hs_meeting_end_time"; "hs_createdate"]
  else ["hs_task_subject"; "hs_task_body"; "hs_task_status"; "hs_timestamp"; "hs_createdate"].

(** [associations.results && associations.results.length > 0] *)
Definition nonEmptyResults (r : JsVal) : bool :=
  truthy r &&
  match r with
  | JArr l => (0 <? length l)%nat
  | JStr s => (0 <? String.length s)%nat
  | JObj m => match toNumber P (field m "length") with
              | NaN => false
              | n => num_gt n (num 0)
              end
  | _ => false
  end.

Definition associationsPath (contactId type : string) : string :=
  "/crm/v4/objects/contacts/" +:+ contactId +:+ "/associations/" +:+ type.

Definition batchReadPath (type : string) : string :=
  "/crm/v3/objects/" +:+ type +:+ "/batch/read".

Definition batchReadBody (type : string) (objectIds : list JsVal) : JsVal :=
  JObj (obj [("inputs", JArr (map (fun id => JObj (obj [("id", id)])) objectIds));
             ("properties", JArr (map JStr (engagementProperties type)))]).

(** The body of the [try] block run for one engagement type. *)
Definition fetchEngagements (contactId : string) (limit : JsNum) (type : string)
  : M (list JsVal) :=
  associations <- hubspot w (associationsPath contactId type) "GET" None ;;
  assocResults <- member associations "results" ;;
  if nonEmptyResults assocResults then
    found <- arrayFor "associations.results" "slice" assocResults ;;
    objectIds <- mapM (fun a => member a "toObjectId")
                      (take (slice_end limit (length found)) found) ;;
    batchResponse <- hubspot w (batchReadPath type) "POST"
                             (Some (batchReadBody type objectIds)) ;;
    batchResults <- member batchResponse "results" ;;
    idAndProperties "batchResponse.results" batchResults
  else ret [].

(** One element of the fan-out: the [try] block with its [catch]. *)
Definition engagementsOfType (contactId : string) (limit : JsNum) (type : string)
  : M (list JsVal) :=
  catch (fetchEngagements contactId limit type) (ret []).

(** [requestedTypes.filter(t => allTypes.includes(t))] *)
Definition typesToFetch (args : JsVal) : list string :=
  match getProp args "types" with
  | JArr requested =>
      omap (fun t => match t with
                     | JStr s => if bool_decide (s ∈ allTypes) then Some s else None
                     | _ => None
                     end) requested
  | _ => allTypes
  end.

(** The fan-out, one type after the other; a later assignment to
    [engagements[type]] replaces an earlier one. *)
Fixpoint fanOut (contactId : string) (limit : JsNum) (types : list string)
    (engagements : Rec) : M Rec :=
  match types with
  | [] => ret engagements
  | type :: rest =>
      found <- engagementsOfType contactId limit type ;;
      fanOut contactId limit rest (<[type := JArr found]> engagements)
  end.

Definition hubspot_get_engagements (args : JsVal) : M JsVal :=
  let contactId := toStr P (getProp args "contactId") in
  let limit := limitArg w args DEFAULT_MAX_RESULTS (num 100) in
  let types := typesToFetch args in
  engagements <- fanOut contactId limit types ∅ ;;
  ret (JObj (obj [("contactId", JStr contactId);
                  ("engagements", JObj engagements);
                  ("_meta", JObj (obj [("typesRequested", JArr (map JStr types))]))])).

(** *** Composite creates: the object first, then its associations *)

Definition associationPath (fromType : string) (id : JsVal) (toType : string)
    (toId : string) (label : string) : string :=
  "/crm/v3/objects/" +:+ fromType +:+ "/" +:+ toStr P id +:+ "/associations/"
  +:+ toType +:+ "/" +:+ toId +:+ "/" +:+ label.

(** [args.timestamp ? String(args.timestamp) : new Date().toISOString()] *)
Definition timestampArg (args : JsVal) : string :=
  if truthy (getProp args "timestamp") then toStr P (getProp args "timestamp") else now w.

Definition emailCreateBody (args : JsVal) : JsVal :=
  JObj (obj [("properties",
              JObj (obj [("hs_email_subject", JStr (toStr P (getProp args "subject")));
                         ("hs_email_text", JStr (toStr P (getProp args "body")));
                         ("hs_email_direction",
                          JStr (toStr P (jor (getProp args "direction") (JStr "EMAIL"))));
                         ("hs_timestamp", JStr (timestampArg args))]))]).

Definition hubspot_log_email (args : JsVal) : M JsVal :=
  let contactId := toStr P (getProp args "contactId") in
  emailData <- hubspot w "/crm/v3/objects/emails" "POST" (Some (emailCreateBody args)) ;;
  emailId <- member emailData "id" ;;
  hubspot w (associationPath "emails" emailId "contacts" contactId "email_to_contact")
          "PUT" None ;;;
  ret (JObj (obj [("success", JBool true);
                  ("emailId", emailId);
                  ("contactId", JStr contactId);
                  ("properties", getProp emailData "properties")])).

Definition noteCreateBody (args : JsVal) : JsVal :=
  JObj (obj [("properties",
              JObj (obj [("hs_note_body", JStr (toStr P (getProp args "body")));
                         ("hs_timestamp", JStr (timestampArg args))]))]).

Definition hubspot_create_note (args : JsVal) : M JsVal :=
  let contactId := toStr P (getProp args "contactId") in
  noteData <- hubspot w "/crm/v3/objects/notes" "POST" (Some (noteCreateBody args)) ;;
  noteId <- member noteData "id" ;;
  hubspot w (associationPath "notes" noteId "contacts" contactId "note_to_contact")
          "PUT" None ;;;
  ret (JObj (obj [("success", JBool true);
                  ("noteId", noteId);
                  ("contactId", JStr contactId);
                  ("properties", getProp noteData "properties")])).

Definition taskCreateBody (args : JsVal) : JsVal :=
  let dueDate := if truthy (getProp args "dueDate")
                 then toStr P (getProp args "dueDate") else tomorrow w in
  let properties : Rec :=
    obj [("hs_task_subject", JStr (toStr P (getProp args "subject")));
         ("hs_timestamp", JStr dueDate);
         ("hs_task_status", JStr "NOT_STARTED")] in
  let properties := setProperty w args "body" "hs_task_body" properties in
  let properties := setProperty w args "ownerId" "hubspot_owner_id" properties in
  let properties := setProperty w args "priority" "hs_task_priority" properties in
  JObj (obj [("properties", JObj properties)]).

Definition hubspot_create_task (args : JsVal) : M JsVal :=
  let contactId := toStr P (getProp args "contactId") in
  taskData <- hubspot w "/crm/v3/objects/tasks" "POST" (Some (taskCreateBody args)) ;;
  taskId <- member taskData "id" ;;
  hubspot w (associationPath "tasks" taskId "contacts" contactId "task_to_contact")
          "PUT" None ;;;
  ret (JObj (obj [("success", JBool true);
                  ("taskId", taskId);
                  ("contactId", JStr contactId);
                  ("properties", getProp taskData "properties")])).

Definition dealCreateBody (args : JsVal) : JsVal :=
  let properties : Rec := {["dealname" := JStr (toStr P (getProp args "dealname"))]} in
  let properties := setProperty w args "amount" "amount" properties in
  let properties := setProperty w args "closedate" "closedate" properties in
  let properties := setProperty w args "pipeline" "pipeline" properties in
  let properties := setProperty w args "dealstage" "dealstage" properties in
  let properties := setProperty w args "ownerId" "hubspot_owner_id" properties in
  JObj (obj [("properties", JObj properties)]).

Definition hubspot_create_deal (args : JsVal) : M JsVal :=
  dealData <- hubspot w "/crm/v3/objects/deals" "POST" (Some (dealCreateBody args)) ;;
  when (truthy (getProp args "contactId"))
       (dealId <- member dealData "id" ;;
        hubspot w (associationPath "deals" dealId "contacts"
                     (toStr P (getProp args "contactId")) "deal_to_contact") "PUT" None) ;;;
  when (truthy (getProp args "companyId"))
       (dealId <- member dealData "id" ;;
        hubspot w (associationPath "deals" dealId "companies"
                     (toStr P (getProp args "companyId")) "deal_to_company") "PUT" None) ;;;
  dealId <- member dealData "id" ;;
  ret (JObj (obj [("success", JBool true);
                  ("dealId", dealId);
                  ("properties", getProp dealData "properties");
                  ("associations",
                   JObj (obj [("contactId", jor (getProp args "contactId") JNull);
                              ("companyId", jor (getProp args "companyId") JNull)]))])).

(** *** Tasks and deals: search, update, delete *)

Definition taskSearchBody (args : JsVal) : Rec :=
  let filters := [] in
  let filters := pushFilter w args "ownerId" "hubspot_owner_id" "EQ" filters in
  let filters := pushFilter w args "status" "hs_task_status" "EQ" filters in
  let filters := pushFilter w args "dueBefore" "hs_timestamp" "LT" filters in
  let filters := pushFilter w args "dueAfter" "hs_timestamp" "GT" filters in
  let body : Rec :=
    obj [("limit", JNum (limitArg w args DEFAULT_MAX_RESULTS (num 100)));
         ("properties", JArr (map JStr ["hs_task_subject"; "hs_task_body"; "hs_task_status";
                                        "hs_timestamp"; "hubspot_owner_id";
                                        "hs_task_priority"]));
         ("sorts", JArr [JObj (obj [("propertyName", JStr "hs_timestamp");
                                    ("direction", JStr "ASCENDING")])])] in
  setFilterGroups filters body.

(** The object returned by [hubspot_search_tasks] and
    [hubspot_search_deals], whose literal reads [data.total] first. *)
Definition searchPage (data : JsVal) : M JsVal :=
  total <- member data "total" ;;
  rows <- idAndProperties "data.results" (getProp data "results") ;;
  ret (JObj (obj [("total", total);
                  ("results", JArr rows);
                  ("paging", getProp data "paging")])).

Definition hubspot_search_tasks (args : JsVal) : M JsVal :=
  data <- hubspot w "/crm/v3/objects/tasks/search" "POST" (Some (JObj (taskSearchBody args))) ;;
  searchPage data.

Definition NO_PROPERTY : string := "At least one property to update must be provided".

Definition taskUpdateProperties (args : JsVal) : Rec :=
  let properties : Rec := ∅ in
  let properties := setProperty w args "status" "hs_task_status" properties in
  let properties := setProperty w args "subject" "hs_task_subject" properties in
  let properties := setProperty w args "body" "hs_task_body" properties in
  let properties := setProperty w args "dueDate" "hs_timestamp" properties in
  let properties := setProperty w args "ownerId" "hubspot_owner_id" properties in
  let properties := setProperty w args "priority" "hs_task_priority" properties in
  properties.

Definition hubspot_update_task (args : JsVal) : M JsVal :=
  let taskId := toStr P (getProp args "taskId") in
  let properties := taskUpdateProperties args in
  if (size properties =? 0)%nat then throw NO_PROPERTY
  else
    taskData <- hubspot w ("/crm/v3/objects/tasks/" +:+ taskId) "PATCH"
                        (Some (JObj (obj [("properties", JObj properties)]))) ;;
    taskId' <- member taskData "id" ;;
    ret (JObj (obj [("success", JBool true);
                    ("taskId", taskId');
                    ("properties", getProp taskData "properties")])).

Definition hubspot_get_deal (args : JsVal) : M JsVal :=
  let params := propertiesParams w args [] in
  hubspot w ("/crm/v3/objects/deals/" +:+ toStr P (getProp args "id") +:+ "?"
             +:+ params_toString P params) "GET" None.

Definition dealUpdateProperties (args : JsVal) : Rec :=
  let properties : Rec := ∅ in
  let properties := setProperty w args "dealname" "dealname" properties in
  let properties := setProperty w args "amount" "amount" properties in
  let properties := setProperty w args "closedate" "closedate" properties in
  let properties := setProperty w args "dealstage" "dealstage" properties in
  let properties := setProperty w args "ownerId" "hubspot_owner_id" properties in
  properties.

Definition hubspot_update_deal (args : JsVal) : M JsVal :=
  let dealId := toStr P (getProp args "id") in
  let properties := dealUpdateProperties args in
  if (size properties =? 0)%nat then throw NO_PROPERTY
  else
    dealData <- hubspot w ("/crm/v3/objects/deals/" +:+ dealId) "PATCH"
                        (Some (JObj (obj [("properties", JObj properties)]))) ;;
    dealId' <- member dealData "id" ;;
    ret (JObj (obj [("success", JBool true);
                    ("dealId", dealId');
                    ("properties", getProp dealData "properties")])).

Definition dealSearchBody (args : JsVal) : Rec :=
  let filters := [] in
  let filters := pushFilter w args "ownerId" "hubspot_owner_id" "EQ" filters in
  let filters := pushFilter w args "dealstage" "dealstage" "EQ" filters in
  let filters := pushFilter w args "pipeline" "pipeline" "EQ" filters in
  let filters := pushFilter w args "closeAfter" "closedate" "GTE" filters in
  let filters := pushFilter w args "closeBefore" "closedate" "LTE" filters in
  let filters := pushFilter w args "minAmount" "amount" "GTE" filters in
  let body : Rec :=
    obj [("limit", JNum (limitArg w args DEFAULT_MAX_RESULTS (num 100)));
         ("properties",
          if isArray (getProp args "properties") then getProp args "properties"
          else JArr (map JStr ["dealname"; "amount"; "closedate"; "dealstage"; "pipeline";
                               "hubspot_owner_id"]));
         ("sorts", JArr [JObj (obj [("propertyName", JStr "closedate");
                                    ("direction", JStr "ASCENDING")])])] in
  let body := setIf (truthy (getProp args "query")) "query" (getProp args "query") body in
  setFilterGroups filters body.

Definition hubspot_search_deals (args : JsVal) : M JsVal :=
  data <- hubspot w "/crm/v3/objects/deals/search" "POST" (Some (JObj (dealSearchBody args))) ;;
  searchPage data.

Definition hubspot_delete_deal (args : JsVal) : M JsVal :=
  hubspot w ("/crm/v3/objects/deals/" +:+ toStr P (getProp args "id")) "DELETE" None ;;;
  ret (JObj (obj [("success", JBool true); ("deleted", getProp args "id")])).

Definition hubspot_deal_properties (args : JsVal) : M JsVal :=
  data <- hubspot w "/crm/v3/properties/deals" "GET" None ;;
  propertyRows data.

Definition hubspot_list_pipelines (args : JsVal) : M JsVal :=
  data <- hubspot w "/crm/v3/pipelines/deals" "GET" None ;;
  dataResults <- member data "results" ;;
  items <- arrayFor "data.results" "map" dataResults ;;
  rows <- mapM (fun p =>
                  id <- member p "id" ;;
                  stageItems <- arrayFor "p.stages" "map" (getProp p "stages") ;;
                  stages <- mapM (fun s =>
                                    sid <- member s "id" ;;
                                    ret (JObj (obj [("id", sid);
                                                    ("label", getProp s "label");
                                                    ("displayOrder", getProp s "displayOrder")])))
                                 stageItems ;;
                  ret (JObj (obj [("id", id); ("label", getProp p "label");
                                  ("stages", JArr stages)]))) items ;;
  ret (JArr rows).

(** The cases of the [switch], in its order. *)
Definition cases : list (string * (JsVal -> M JsVal)) :=
  [ ("hubspot_list_contacts", hubspot_list_contacts);
    ("hubspot_get_contact", hubspot_get_contact);
    ("hubspot_create_contact", hubspot_create_contact);
    ("hubspot_update_contact", hubspot_update_contact);
    ("hubspot_delete_contact", hubspot_delete_contact);
    ("hubspot_search_contacts", hubspot_search_contacts);
    ("hubspot_list_companies", hubspot_list_companies);
    ("hubspot_get_company", hubspot_get_company);
    ("hubspot_create_company", hubspot_create_company);
    ("hubspot_update_company", hubspot_update_company);
    ("hubspot_delete_company", hubspot_delete_company);
    ("hubspot_search_companies", hubspot_search_companies);
    ("hubspot_contact_properties", hubspot_contact_properties);
    ("hubspot_company_properties", hubspot_company_properties);
    ("hubspot_list_owners", hubspot_list_owners);
    ("hubspot_get_owner", hubspot_get_owner);
    ("hubspot_get_engagements", hubspot_get_engagements);
    ("hubspot_log_email", hubspot_log_email);
    ("hubspot_create_note", hubspot_create_note);
    ("hubspot_create_task", hubspot_create_task);
    ("hubspot_search_tasks", hubspot_search_tasks);
    ("hubspot_update_task", hubspot_update_task);
    ("hubspot_get_deal", hubspot_get_deal);
    ("hubspot_create_deal", hubspot_create_deal);
    ("hubspot_update_deal", hubspot_update_deal);
    ("hubspot_search_deals", hubspot_search_deals);
    ("hubspot_delete_deal", hubspot_delete_deal);
    ("hubspot_deal_properties", hubspot_deal_properties);
    ("hubspot_list_pipelines", hubspot_list_pipelines) ].

Fixpoint selectCase (name : string) (cs : list (string * (JsVal -> M JsVal)))
  : option (JsVal -> M JsVal) :=
  match cs with
  | [] => None
  | (label, body) :: rest => if String.eqb name label then Some body else selectCase name rest
  end.

(** The value of [result] in [handleTool]: the [switch] on the tool name. *)
Definition toolResult (name : JsVal) (args : JsVal) : M JsVal :=
  match name with
  | JStr s =>
      match selectCase s cases with
      | Some body => body args
      | None => throw ("Unknown tool: " +:+ toStr P name)
      end
  | _ => throw ("Unknown tool: " +:+ toStr P name)
  end.

Definition handleTool (name : JsVal) (args : JsVal) : M JsVal :=
  result <- toolResult name args ;;
  ret (JObj (obj [("content",
                   JArr [JObj (obj [("type", JStr "text");
                                    ("text", JStr (jsonStringify P result))])])])).

End Tools.

(** ** The Tool Catalog and the JSON-RPC router *)

(** The [name] of each entry of [TOOLS], in its order. *)
Definition TOOLS : list string :=
  [ "hubspot_list_contacts"; "hubspot_get_contact"; "hubspot_create_contact";
    "hubspot_update_contact"; "hubspot_delete_contact"; "hubspot_search_contacts";
    "hubspot_list_companies"; "hubspot_get_company"; "hubspot_create_company";
    "hubspot_update_company"; "hubspot_delete_company"; "hubspot_search_companies";
    "hubspot_contact_properties"; "hubspot_company_properties";
    "hubspot_list_owners"; "hubspot_get_owner";
    "hubspot_get_engagements"; "hubspot_log_email"; "hubspot_create_note";
    "hubspot_create_task"; "hubspot_search_tasks"; "hubspot_update_task";
    "hubspot_get_deal"; "hubspot_create_deal"; "hubspot_update_deal";
    "hubspot_search_deals"; "hubspot_delete_deal"; "hubspot_deal_properties";
    "hubspot_list_pipelines" ].

Record HttpRequest := {
  req_method : string;
  req_body : JsVal;
}.

Record HttpResponse := {
  res_status : nat;
  res_headers : list (string * string);
  (** the argument of [json()], none after [end()] *)
  res_json : option JsVal;
}.

Definition CORS : list (string * string) :=
  [ ("Access-Control-Allow-Origin", "*");
    ("Access-Control-Allow-Methods", "POST, OPTIONS");
    ("Access-Control-Allow-Headers", "Content-Type") ].

Definition respond (status : nat) (json : option JsVal) : HttpResponse :=
  {| res_status := status; res_headers := CORS; res_json := json |}.

Definition rpcResult (result id : JsVal) : JsVal :=
  JObj (obj [("jsonrpc", JStr "2.0"); ("result", result); ("id", id)]).

Definition rpcError (code : Z) (message : string) (id : JsVal) : JsVal :=
  JObj (obj [("jsonrpc", JStr "2.0");
             ("error", JObj (obj [("code", jnum code); ("message", JStr message)]));
             ("id", id)]).

(** [req.body?.id] *)
Definition optionalId (body : JsVal) : JsVal :=
  match body with
  | JUndefined | JNull => JUndefined
  | _ => getProp body "id"
  end.

(** [const { method, params, id } = req.body], which throws when there is
    no body. *)
Definition destructure (body : JsVal) : M JsVal :=
  match body with
  | JUndefined =>
      throw "Cannot destructure property 'method' of 'req.body' as it is undefined."
  | JNull => throw "Cannot destructure property 'method' of 'req.body' as it is null."
  | _ => ret (getProp body "method")
  end.

(** The [try] block of [handler]. Only the names of the catalog are
    kept in the answer to [tools/list]; the descriptions and input
    schemas are literals of the source that no property below reads. *)
Definition route (w : World) (body : JsVal) : M HttpResponse :=
  method <- destructure body ;;
  let params := getProp body "params" in
  let id := getProp body "id" in
  if is_string method "initialize" then
    ret (respond 200 (Some (rpcResult
      (JObj (obj [("protocolVersion", JStr MCP_VERSION);
                  ("capabilities", JObj (obj [("tools", JObj ∅)]));
                  ("serverInfo", JObj (obj [("name", JStr SERVER_NAME);
                                            ("version", JStr SERVER_VERSION)]))])) id)))
  else if is_string method "tools/list" then
    ret (respond 200 (Some (rpcResult
      (JObj (obj [("tools", JArr (map (fun n => JObj (obj [("name", JStr n)])) TOOLS))])) id)))
  else if is_string method "tools/call" then
    name <- member params "name" ;;
    result <- handleTool w name (jor (getProp params "arguments") (JObj ∅)) ;;
    ret (respond 200 (Some (rpcResult result id)))
  else
    ret (respond 200 (Some (rpcError (-32601)
                              ("Method not found: " +:+ toStr (platform w) method) id))).

(** [handler(req, res)]: the response, and the requests made to the
    remote system while serving it. *)
Definition handler (w : World) (req : HttpRequest) : HttpResponse * list Call :=
  if String.eqb (req_method req) "OPTIONS" then (respond 200 None, [])
  else if negb (String.eqb (req_method req) "POST")
  then (respond 405 (Some (JObj (obj [("error", JStr "Method not allowed")]))), [])
  else
    match route w (req_body req) [] with
    | (inr response, log) => (response, log)
    | (inl message, log) =>
        (respond 200 (Some (rpcError (-32603) message (optionalId (req_body req)))), log)
    end.

(** * Vocabulary of the specification *)

(** ** Compaction *)

(** The [maxPropertyLength] of the Compaction Options: a non-negative
    integer, or unbounded. *)
Inductive MaxLen :=
| Bounded (n : nat)
| Unbounded.

Definition maxLenNum (m : MaxLen) : JsNum :=
  match m with
  | Bounded n => jlen n
  | Unbounded => PosInf
  end.

(** [out] is the first [n] characters of [s] followed by the truncation
    marker. *)
Definition cut_at (n : nat) (s out : string) : Prop :=
  ∃ pre rest, s = pre +:+ rest ∧ String.length pre = n ∧ out = pre +:+ TRUNCATED.

(** What the specification asks of the compacted value [v'] of a
    property value [v]. *)
Definition compacted_to (m : MaxLen) (v v' : JsVal) : Prop :=
  match v, m with
  | JStr s, Bounded n =>
      (String.length s ≤ n → v' = v) ∧
      (n < String.length s → ∃ out, v' = JStr out ∧ cut_at n s out)
  | _, _ => v' = v
  end.

(** ** Client-side filter *)

(** [t] occurs in [s] as a substring. *)
Definition contains (s t : string) : Prop :=
  ∃ pre post, s = pre +:+ t +:+ post.

(** The text of property [k] of an object as the filter reads it
    ([String(props.k || '')]): empty when the object has no property
    map, or the map has no [k], or its value is falsy. The filter is
    stated without this reading by [isMatched] below. *)
Definition propertyText (P : Platform) (item : Rec) (k : string) : string :=
  match field item "properties" with
  | JObj props =>
      match props !! k with
      | Some v => if truthy v then toStr P v else EmptyString
      | None => EmptyString
      end
  | _ => EmptyString
  end.

(** A text that is not empty and whose lower case contains the lower
    case of some exclusion term: the test as the filter computes it. *)
Definition excludedBy (terms : list string) (text : string) : Prop :=
  text ≠ EmptyString
  ∧ Exists (fun term => contains (toLowerCase text) (toLowerCase term)) terms.

Definition matched (P : Platform) (options : FilterOptions) (item : Rec) : Prop :=
  excludedBy (default [] (excludeCompanies options)) (propertyText P item "company")
  ∨ excludedBy (default [] (excludeJobTitles options)) (propertyText P item "jobtitle").

(** The letters of the code units below 256, each upper-case letter with
    its lower-case letter: A-Z with a-z, and the letters U+00C0-U+00D6
    and U+00D8-U+00DE with the letters 32 above them. *)
Definition letterPairs : list (ascii * ascii) :=
  zip (list_ascii_of_string "ABCDEFGHIJKLMNOPQRSTUVWXYZ")
      (list_ascii_of_string "abcdefghijklmnopqrstuvwxyz")
  ++ map (fun n => (ascii_of_nat n, ascii_of_nat (n + 32))) (seq 192 23 ++ seq 216 7).

(** Two code units that are the same up to the case of a letter. *)
Definition sameLetter (a b : ascii) : Prop :=
  a = b ∨ (a, b) ∈ letterPairs ∨ (b, a) ∈ letterPairs.

(** Two strings that are the same up to the case of their letters. *)
Fixpoint sameFolded (s t : string) : Prop :=
  match s, t with
  | EmptyString, EmptyString => True
  | String a s', String b t' => sameLetter a b ∧ sameFolded s' t'
  | _, _ => False
  end.

(** [text] contains [term] as a substring, up to the case of letters. *)
Definition containsFolded (text term : string) : Prop :=
  ∃ pre mid post, text = pre +:+ mid +:+ post ∧ sameFolded mid term.

(** The value of property [k] of an object, [undefined] when the object
    has no property map or the map has no [k]. *)
Definition propertyValue (item : Rec) (k : string) : JsVal :=
  getProp (field item "properties") k.

(** The text that a property value carries. A string carries itself and
    a missing value (undefined or null) carries none. A value that is no
    text is read as follows: [true] and a number other than 0 and NaN
    carry their [String()], as do arrays and objects, while [false], 0
    and NaN carry none and so count as missing. *)
Definition carriedText (P : Platform) (v : JsVal) : option string :=
  match v with
  | JUndefined | JNull => None
  | JStr s => Some s
  | JBool true => Some "true"
  | JBool false => None
  | JNum NaN => None
  | JNum (Fin q) => if Qeq_bool q 0 then None else Some (numberToString P (Fin q))
  | JNum n => Some (numberToString P n)
  | JArr _ | JObj _ => Some (toStr P v)
  end.

(** The value carries a text that is not empty and that contains one of
    the terms, up to case. *)
Definition matchedBy (P : Platform) (terms : list string) (v : JsVal) : Prop :=
  ∃ text, carriedText P v = Some text ∧ text ≠ EmptyString
          ∧ ∃ term, term ∈ terms ∧ containsFolded text term.

Definition isMatched (P : Platform) (options : FilterOptions) (item : Rec) : Prop :=
  matchedBy P (default [] (excludeCompanies options)) (propertyValue item "company")
  ∨ matchedBy P (default [] (excludeJobTitles options)) (propertyValue item "jobtitle").


(** Every code unit below 256. *)
Definition allUnits : list ascii := map ascii_of_nat (seq 0 256).

(** ** Requests *)

(** The token is configured. *)
Definition configured (w : World) : Prop :=
  match HUBSPOT_ACCESS_TOKEN w with
  | None | Some EmptyString => False
  | Some _ => True
  end.

(** What a request other than a DELETE yields: the decoded answer, or
    the message of the failure. *)
Definition answer (w : World) (c : Call) : string + JsVal :=
  match remote w c with
  | FetchRejected message => inl message
  | HttpFailure status text => inl ("HubSpot API " +:+ pretty status +:+ ": " +:+ text)
  | HttpSuccess json => json
  end.



Definition GET (path : string) : Call :=
  {| call_path := path; call_method := "GET"; call_body := None |}.
Definition PUT (path : string) : Call :=
  {| call_path := path; call_method := "PUT"; call_body := None |}.
Definition DELETE (path : string) : Call :=
  {| call_path := path; call_method := "DELETE"; call_body := None |}.
Definition POST (path : string) (body : JsVal) : Call :=
  {| call_path := path; call_method := "POST"; call_body := Some body |}.

(** A computation that only appends to the log and whose outcome does
    not depend on the requests made before it. *)
Definition appends {A} (m : M A) : Prop :=
  ∀ log, m log = ((m []).1, log ++ (m []).2).

(** A computation that makes no request. *)
Definition silent {A} (m : M A) : Prop :=
  ∀ log, (m log).2 = log.


(** ** Sample world for the examples *)

Definition decimal (n : JsNum) : string :=
  match n with
  | NaN => "NaN"
  | PosInf => "Infinity"
  | NegInf => "-Infinity"
  | Fin q => if (Qnum q <? 0)%Z then "-" +:+ pretty (Z.to_N (- Qnum q))
             else pretty (Z.to_N (Qnum q))
  end.

(** A platform good for whole numbers; it parses no string. *)
Definition samplePlatform : Platform :=
  {| numberToString := decimal;
     stringToNumber := fun _ => NaN;
     jsonStringify := fun _ => "{}";
     formEncode := fun s => s |}.

Definition sampleWorld (remote : Call -> Response) : World :=
  {| platform := samplePlatform;
     HUBSPOT_ACCESS_TOKEN := Some "pat-xxx";
     remote := remote;
     now := "2024-01-15T10:30:00.000Z";
     tomorrow := "2024-01-16T10:30:00.000Z" |}.

(** A remote that answers every request with the same object. *)
Definition created : JsVal :=
  JObj (obj [("id", JStr "77"); ("properties", JObj ∅)]).

Definition agreeable : Call -> Response := fun _ => HttpSuccess (inr created).

(** ** Metadata *)

Definition metadataFields : list string := ["createdAt"; "updatedAt"; "archived"; "url"].

(** The source object carries a value for the field. *)
Definition carries (item : Rec) (k : string) : Prop := field item k ≠ JUndefined.

(** ** Requests of the tools *)

(** The request that [hubspot(path, method, body)] makes. *)
Definition request (path method : string) (body : option JsVal) : Call :=
  {| call_path := path; call_method := method;
     call_body := match body with
                  | Some b => if truthy b then Some b else None
                  | None => None
                  end |}.

Definition nullish (v : JsVal) : bool :=
  match v with JUndefined | JNull => true | _ => false end.


(** A JSON-RPC [tools/call] request. *)
Definition toolsCall (name : string) (arguments id : JsVal) : JsVal :=
  JObj (obj [("jsonrpc", JStr "2.0"); ("method", JStr "tools/call");
             ("params", JObj (obj [("name", JStr name); ("arguments", arguments)]));
             ("id", id)]).

(** ** Engagements *)


(** The five engagement types that the tool knows. *)
Definition engagementTypes : list string := ["notes"; "emails"; "calls"; "meetings"; "tasks"].

(** The call asks for the engagements of [type]: a known type that
    [args.types] lists, or any known type when [args.types] is no array. *)
Definition requested (args : JsVal) (type : string) : Prop :=
  type ∈ engagementTypes
  ∧ match getProp args "types" with
    | JArr asked => JStr type ∈ asked
    | _ => True
    end.


Definition engagementsResult (contactId : string) (engagements : Rec) (types : list string)
  : JsVal :=
  JObj (obj [("contactId", JStr contactId);
             ("engagements", JObj engagements);
             ("_meta", JObj (obj [("typesRequested", JArr (map JStr types))]))]).

(** ** Composite creates *)






Definition scenarioDeal : JsVal :=
  JObj (obj [("dealname", JStr "Q1 Renewal"); ("contactId", JStr "10");
             ("companyId", JStr "20")]).

(** ** Updates *)



(** ** Searches *)









(** ** Paths and texts of the requests *)



(** A remote whose association lookup for calls throws, and which holds
    one email for the contact. *)
Definition callsDown (c : Call) : Response :=
  if String.eqb (call_path c) "/crm/v4/objects/contacts/10/associations/calls"
  then HttpFailure 500 "boom"
  else if String.eqb (call_path c) "/crm/v4/objects/contacts/10/associations/emails"
  then HttpSuccess (inr (JObj (obj [("results",
                                     JArr [JObj (obj [("toObjectId", JStr "501")])])])))
  else if String.eqb (call_path c) "/crm/v3/objects/emails/batch/read"
  then HttpSuccess (inr (JObj (obj [("results",
         JArr [JObj (obj [("id", JStr "501");
                          ("properties",
                           JObj (obj [("hs_email_subject", JStr "Hello")]))])])])))
  else HttpSuccess (inr (JObj ∅)).

(** * Vocabulary of the further properties *)

(** ** Compacted objects *)

Definition compactKeys : list string :=
  ["id"; "properties"; "createdAt"; "updatedAt"; "archived"; "url"].

(** What [compactResult] puts under the key [k]. *)
Definition compactField (item : Rec) (options : CompactOptions) (k : string) : option JsVal :=
  let max := default DEFAULT_MAX_PROPERTY_LENGTH (maxPropertyLength options) in
  let on := default false (includeMetadata options) in
  let kept (v : JsVal) := if on && truthy v then Some v else None in
  if String.eqb k "id" then Some (field item "id")
  else if String.eqb k "properties" then
    if truthy (field item "properties") && is_object (field item "properties")
    then Some (JObj (truncateProperties (field item "properties") max)) else None
  else if String.eqb k "createdAt" then kept (field item "createdAt")
  else if String.eqb k "updatedAt" then kept (field item "updatedAt")
  else if String.eqb k "archived" then
    match field item "archived" with
    | JUndefined => None
    | v => if on then Some v else None
    end
  else if String.eqb k "url" then kept (field item "url")
  else None.

(** ** The router *)

Definition content (P : Platform) (result : JsVal) : JsVal :=
  JObj (obj [("content",
              JArr [JObj (obj [("type", JStr "text");
                               ("text", JStr (jsonStringify P result))])])]).

Definition post (body : JsVal) : HttpRequest :=
  {| req_method := "POST"; req_body := body |}.

(** The envelope of an answer to a request with body [body]. *)
Definition envelope (body payload : JsVal) : Prop :=
  (∃ result, payload = rpcResult result (optionalId body))
  ∨ (∃ message, payload = rpcError (-32601) message (optionalId body))
  ∨ (∃ message, payload = rpcError (-32603) message (optionalId body)).



Definition initializeResult : JsVal :=
  JObj (obj [("protocolVersion", JStr "2024-11-05");
             ("capabilities", JObj (obj [("tools", JObj ∅)]));
             ("serverInfo", JObj (obj [("name", JStr "hubspot-crm-mcp");
                                       ("version", JStr "1.3.0")]))]).

(** ** Failures *)







(** ** Pages *)


(** ** Request budgets *)

(** A computation that makes at most [n] requests, each satisfying [Q]. *)
Definition asks (Q : Call → Prop) (n : nat) {A} (m : M A) : Prop :=
  ∀ log, ∃ l, (m log).2 = log ++ l ∧ length l ≤ n ∧ Forall Q l.

(** A request below the CRM root of the remote API. *)
Definition crmPath (c : Call) : Prop := String.prefix "/crm/v" (call_path c) = true.

(** The most requests that a call of a tool makes. *)
Definition budget (name : string) (args : JsVal) : nat :=
  if String.eqb name "hubspot_get_engagements" then 2 * length (typesToFetch args)
  else if String.eqb name "hubspot_create_deal" then 3
  else if bool_decide (name ∈ ["hubspot_log_email"; "hubspot_create_note";
                              "hubspot_create_task"]) then 2
  else if bool_decide (name ∈ TOOLS) then 1
  else 0.

(** ** Engagement reads and update tables *)







(** ** Page tools and sample remotes *)








(** ** Projections *)







(** ** Pipelines *)

(** What is kept of one stage and of one pipeline. *)
Definition stageOf (s : JsVal) : JsVal :=
  JObj (obj [("id", getProp s "id"); ("label", getProp s "label");
             ("displayOrder", getProp s "displayOrder")]).

Definition stagesOf (p : JsVal) : list JsVal :=
  match getProp p "stages" with JArr l => l | _ => [] end.

Definition pipelineOf (p : JsVal) : JsVal :=
  JObj (obj [("id", getProp p "id"); ("label", getProp p "label");
             ("stages", JArr (map stageOf (stagesOf p)))]).

(** A pipeline whose stages are listed. *)
Definition staged (p : JsVal) : Prop :=
  nullish p = false ∧ isArray (getProp p "stages") = true
  ∧ Forall (fun s => nullish s = false) (stagesOf p).

(** A remote that answers every request with one pipeline of two stages. *)
Definition pipelined : Call → Response :=
  fun _ => HttpSuccess (inr (JObj (obj [
    ("results",
     JArr [JObj (obj [("id", JStr "default"); ("label", JStr "Sales");
                      ("displayOrder", jnum 0);
                      ("stages",
                       JArr [JObj (obj [("id", JStr "open"); ("label", JStr "Open");
                                        ("displayOrder", jnum 0);
                                        ("metadata", JObj ∅)]);
                             JObj (obj [("id", JStr "won"); ("label", JStr "Won");
                                        ("displayOrder", jnum 1)])])])])]))).

(** ** Creates *)




(** * Properties *)

(** ** Strings *)

Lemma append_cons c s t : String c s +:+ t = String c (s +:+ t).
Proof. reflexivity. Qed.

Lemma prefix_spec t s : String.prefix t s = true ↔ ∃ post, s = t +:+ post.
Proof.
  revert s. induction t as [|a t IH]; intros s.
  - split; [intros _; by exists s | intros _; by destruct s].
  - destruct s as [|b s].
    + split; [discriminate | intros [post H]; discriminate].
    + cbn. destruct (ascii_dec a b) as [->|Hne].
      * rewrite IH. split; intros [post H]; exists post;
          rewrite ?append_cons in *; congruence.
      * split; [discriminate | intros [post H]; rewrite append_cons in H; congruence].
Qed.

Lemma includes_spec s t : includes s t = true ↔ contains s t.
Proof.
  unfold contains. split.
  - induction s as [|c s IH]; cbn [includes]; rewrite orb_true_iff.
    + intros [H | H]; [|discriminate].
      apply prefix_spec in H as [post H]. by exists EmptyString, post.
    + intros [H | H].
      * apply prefix_spec in H as [post H]. by exists EmptyString, post.
      * destruct (IH H) as (pre & post & ->). by exists (String c pre), post.
  - intros (pre & post & ->). induction pre as [|c pre IH].
    + change (EmptyString +:+ t +:+ post) with (t +:+ post).
      assert (String.prefix t (t +:+ post) = true) as H by (apply prefix_spec; eauto).
      destruct (t +:+ post); cbn [includes]; by rewrite H.
    + change (String c pre +:+ t +:+ post) with (String c (pre +:+ t +:+ post)).
      cbn [includes]. rewrite IH. apply orb_true_r.
Qed.

Lemma contains_suffix pre s : contains (pre +:+ s) s.
Proof.
  exists pre, EmptyString. f_equal. induction s as [|c s IH]; [done|].
  rewrite append_cons. by rewrite <- IH.
Qed.


#[global] Instance contains_dec s t : Decision (contains s t).
Proof.
  destruct (includes s t) eqn:E.
  - left. by apply includes_spec.
  - right. intros H. apply includes_spec in H. congruence.
Defined.

#[global] Instance excludedBy_dec terms text : Decision (excludedBy terms text).
Proof. unfold excludedBy. apply _. Defined.

#[global] Instance matched_dec P options item : Decision (matched P options item).
Proof. unfold matched. apply _. Defined.

(** ** The client-side filter *)





Lemma allUnits_complete (a : ascii) : a ∈ allUnits.
Proof.
  unfold allUnits. apply list_elem_of_fmap. exists (nat_of_ascii a).
  split; [by rewrite ascii_nat_embedding|]. apply elem_of_seq.
  pose proof (nat_ascii_bounded a). lia.
Qed.

#[global] Instance sameLetter_dec a b : Decision (sameLetter a b).
Proof. unfold sameLetter. apply _. Defined.

Lemma lower_unit_same a b : lower_unit a = lower_unit b ↔ sameLetter a b.
Proof.
  assert (forallb (fun a => forallb (fun b =>
            bool_decide (lower_unit a = lower_unit b ↔ sameLetter a b)) allUnits) allUnits
          = true) as H by (vm_compute; reflexivity).
  rewrite forallb_forall in H.
  pose proof (H a (proj1 (list_elem_of_In _ _) (allUnits_complete a))) as Ha.
  rewrite forallb_forall in Ha.
  pose proof (Ha b (proj1 (list_elem_of_In _ _) (allUnits_complete b))) as Hb.
  by apply bool_decide_eq_true in Hb.
Qed.

Lemma toLowerCase_same s t : toLowerCase s = toLowerCase t ↔ sameFolded s t.
Proof.
  revert t. induction s as [|a s IH]; intros [|b t]; cbn [toLowerCase sameFolded].
  - done.
  - split; [discriminate | done].
  - split; [discriminate | done].
  - rewrite <- IH, <- lower_unit_same. split; [by intros [= ? ?] | by intros [-> ->]].
Qed.

Lemma toLowerCase_app s t : toLowerCase (s +:+ t) = toLowerCase s +:+ toLowerCase t.
Proof.
  induction s as [|a s IH]; [done|].
  rewrite append_cons. cbn [toLowerCase]. by rewrite IH, append_cons.
Qed.

Lemma toLowerCase_split s a b :
  toLowerCase s = a +:+ b →
  ∃ s1 s2, s = s1 +:+ s2 ∧ toLowerCase s1 = a ∧ toLowerCase s2 = b.
Proof.
  revert s. induction a as [|c a IH]; intros s H.
  - by exists EmptyString, s.
  - destruct s as [|d s]; [done|]. rewrite append_cons in H. cbn [toLowerCase] in H.
    injection H as Hc H.
    destruct (IH s H) as (s1 & s2 & -> & H1 & H2).
    exists (String d s1), s2. rewrite append_cons. cbn [toLowerCase].
    by rewrite Hc, H1.
Qed.

Lemma contains_folded text term :
  contains (toLowerCase text) (toLowerCase term) ↔ containsFolded text term.
Proof.
  unfold contains, containsFolded. split.
  - intros (pre' & post' & H).
    apply toLowerCase_split in H as (pre & rest & -> & _ & H).
    apply toLowerCase_split in H as (mid & post & -> & H & _).
    exists pre, mid, post. split; [done | by apply toLowerCase_same].
  - intros (pre & mid & post & -> & H). apply toLowerCase_same in H.
    exists (toLowerCase pre), (toLowerCase post).
    by rewrite !toLowerCase_app, H.
Qed.

Lemma excludedBy_matchedBy P terms item k :
  excludedBy terms (propertyText P item k) ↔ matchedBy P terms (propertyValue item k).
Proof.
  unfold excludedBy, matchedBy, propertyText, propertyValue, getProp.
  rewrite Exists_exists.
  assert (∀ text, (∃ term, term ∈ terms ∧ contains (toLowerCase text) (toLowerCase term))
                  ↔ ∃ term, term ∈ terms ∧ containsFolded text term) as Hc.
  { intros text. split; intros (term & ? & ?); exists term; (split; [done|]);
      by apply contains_folded. }
  rewrite Hc.
  assert (∀ text, (text ≠ EmptyString ∧ ∃ term, term ∈ terms ∧ containsFolded text term)
                  ↔ ∃ t, Some text = Some t ∧ t ≠ EmptyString
                         ∧ ∃ term, term ∈ terms ∧ containsFolded t term) as Hs.
  { intros text. split; [intros [? ?]; by exists text | by intros (t & [= <-] & ? & ?)]. }
  assert ((EmptyString ≠ EmptyString
           ∧ ∃ term, term ∈ terms ∧ containsFolded EmptyString term)
          ↔ ∃ t, None = Some t ∧ t ≠ EmptyString
                 ∧ ∃ term, term ∈ terms ∧ containsFolded t term) as Hn.
  { split; [by intros [? _] | by intros (t & ? & _)]. }
  destruct (field item "properties") as [| | | | | |props]; cbn [carriedText]; try exact Hn.
  unfold field. destruct (props !! k) as [v|]; cbn [default from_option id carriedText];
    [|exact Hn].
  destruct v as [| |b|n|s|l|m]; cbn [truthy carriedText]; try exact Hn.
  - destruct b; [apply Hs | exact Hn].
  - destruct n as [| | |q]; cbn [num_truthy]; [exact Hn | apply Hs | apply Hs |].
    destruct (Qeq_bool q 0); cbn [negb]; [exact Hn | apply Hs].
  - destruct (String.eqb_spec s EmptyString) as [->|Hne]; cbn [negb].
    + split; [by intros [? _] | by intros (t & [= <-] & ? & _)].
    + apply Hs.
  - apply Hs.
  - apply Hs.
Qed.

Lemma matched_isMatched P options item : matched P options item ↔ isMatched P options item.
Proof. unfold matched, isMatched. by rewrite !excludedBy_matchedBy. Qed.

#[global] Instance isMatched_dec P options item : Decision (isMatched P options item).
Proof.
  destruct (decide (matched P options item)) as [H|H].
  - left. by apply matched_isMatched.
  - right. intros H'. by apply H, matched_isMatched.
Defined.


(** The scenario of the specification: of five contacts, the two of
    "Acme Corp" are excluded by the term "Acme". *)
Example filterResults_acme :
  let contact (company : string) : Rec :=
    obj [("id", JStr "1"); ("properties", JObj (obj [("company", JStr company)]))] in
  let rs := [contact "Acme Corp"; contact "Initech"; contact "Globex";
             contact "Acme Corp"; contact "Umbrella"] in
  let out := filterResults samplePlatform rs
               {| excludeCompanies := Some ["Acme"]; excludeJobTitles := Some [] |} in
  results out = [contact "Initech"; contact "Globex"; contact "Umbrella"]
  ∧ excluded out = 2.
Proof. vm_compute. done. Qed.

(** ** Compaction *)

Lemma Qle_bool_inject (a b : Z) : Qle_bool (inject_Z a) (inject_Z b) = (a <=? b)%Z.
Proof.
  destruct (a <=? b)%Z eqn:E.
  - apply Qle_bool_iff. rewrite <- Zle_Qle. lia.
  - apply not_true_is_false. intros H. apply Qle_bool_iff in H.
    rewrite <- Zle_Qle in H. lia.
Qed.

Lemma num_gt_jlen (L n : nat) : num_gt (jlen L) (jlen n) = bool_decide (n < L).
Proof.
  unfold num_gt, jlen, num. rewrite Qle_bool_inject.
  case_bool_decide; destruct (Z.of_nat L <=? Z.of_nat n)%Z eqn:E; cbn; try done; lia.
Qed.

Lemma num_gt_PosInf n : num_gt n PosInf = false.
Proof. by destruct n. Qed.

Lemma substring_end_jlen (n L : nat) : substring_end (jlen n) L = Nat.min n L.
Proof.
  unfold substring_end, jlen, num.
  change 0%Q with (inject_Z 0). rewrite Qle_bool_inject, Qfloor_Z.
  destruct (Z.of_nat n <=? 0)%Z eqn:E; [lia|]. by rewrite Nat2Z.id.
Qed.

Lemma substring_prefix (n : nat) (s : string) :
  n ≤ String.length s →
  ∃ rest, s = String.substring 0 n s +:+ rest ∧ String.length (String.substring 0 n s) = n.
Proof.
  revert s. induction n as [|n IH]; intros s Hn.
  - exists s. by destruct s.
  - destruct s as [|c s]; cbn in Hn; [lia|].
    destruct (IH s) as (rest & Hs & Hl); [lia|].
    exists rest. cbn [String.substring]. rewrite append_cons. cbn [String.length].
    split; congruence.
Qed.

Lemma truncateValue_spec (m : MaxLen) (v : JsVal) :
  compacted_to m v (truncateValue (maxLenNum m) v).
Proof.
  destruct v as [| | | |s| |]; try (by destruct m).
  destruct m as [n|]; cbn [compacted_to truncateValue maxLenNum]; [|done].
  rewrite num_gt_jlen, substring_end_jlen. case_bool_decide as Hlt.
  - split; [lia|]. intros _. eexists; split; [done|].
    rewrite Nat.min_l by lia.
    destruct (substring_prefix n s) as (rest & Hs & Hl); [lia|].
    by exists (String.substring 0 n s), rest.
  - split; [done | lia].
Qed.

Lemma lookup_assign (key k : string) (value : JsVal) (result : Rec) :
  assign key value result !! k
  = if String.eqb key "__proto__" then result !! k
    else if bool_decide (key = k) then Some value else result !! k.
Proof.
  unfold assign. destruct (String.eqb key "__proto__"); [done|].
  case_bool_decide as E; [subst; apply lookup_insert_eq | by apply lookup_insert_ne].
Qed.

Lemma fold_assign_lookup (f : JsVal → JsVal) (l : list (string * JsVal)) (acc : Rec) k :
  NoDup l.*1 →
  fold_left (fun result kv => assign kv.1 (f kv.2) result) l acc !! k
  = if String.eqb k "__proto__" then acc !! k
    else match (list_to_map l : Rec) !! k with
         | Some v => Some (f v)
         | None => acc !! k
         end.
Proof.
  revert acc. induction l as [|[k0 v0] l IH]; intros acc Hnd.
  - cbn. by destruct (String.eqb k "__proto__").
  - apply NoDup_cons in Hnd as [Hk0 Hnd]. cbn [fold_left list_to_map foldr].
    rewrite IH by done. cbn [fst snd]. rewrite lookup_assign.
    destruct (String.eqb k "__proto__") eqn:Ek.
    + apply String.eqb_eq in Ek.
      destruct (String.eqb k0 "__proto__") eqn:Ek0; [done|].
      apply String.eqb_neq in Ek0. rewrite bool_decide_eq_false_2; [done | congruence].
    + destruct (decide (k0 = k)) as [Heq|Hne].
      * rewrite Heq in *. rewrite Ek, bool_decide_eq_true_2 by done.
        by rewrite (not_elem_of_list_to_map_1 _ _ Hk0), lookup_insert_eq.
      * rewrite lookup_insert_ne by done.
        destruct (String.eqb k0 "__proto__"); [done|].
        by rewrite bool_decide_eq_false_2.
Qed.

Lemma truncateProperties_lookup (props : Rec) (maxLength : JsNum) k :
  truncateProperties (JObj props) maxLength !! k
  = if String.eqb k "__proto__" then None else truncateValue maxLength <$> props !! k.
Proof.
  unfold truncateProperties, entries.
  rewrite fold_assign_lookup by apply NoDup_fst_map_to_list.
  rewrite list_to_map_to_list, lookup_empty. by destruct (props !! k).
Qed.

Lemma truncateProperties_unbounded (props : Rec) :
  truncateProperties (JObj props) PosInf = delete "__proto__" props.
Proof.
  apply map_eq. intros k. rewrite truncateProperties_lookup.
  destruct (String.eqb_spec k "__proto__") as [->|Hk]; [by rewrite lookup_delete_eq|].
  rewrite lookup_delete_ne by done.
  destruct (props !! k) as [v|]; [|done]. cbn. f_equal.
  destruct v; cbn; by rewrite ?num_gt_PosInf.
Qed.

Lemma lookup_setIf (c : bool) (k k' : string) (v : JsVal) (r : Rec) :
  setIf c k v r !! k' = if c && bool_decide (k = k') then Some v else r !! k'.
Proof.
  unfold setIf. destruct c; cbn [andb]; [|done].
  case_bool_decide as E; [subst; apply lookup_insert_eq | by apply lookup_insert_ne].
Qed.

Lemma compactResult_properties (item props : Rec) (options : CompactOptions) :
  item !! "properties" = Some (JObj props) →
  compactResult item options !! "properties"
  = Some (JObj (truncateProperties (JObj props)
                  (default DEFAULT_MAX_PROPERTY_LENGTH (maxPropertyLength options)))).
Proof.
  intros Hp. unfold compactResult.
  assert (field item "properties" = JObj props) as -> by (unfold field; by rewrite Hp).
  destruct (default false (includeMetadata options)); rewrite !lookup_setIf;
    rewrite ?andb_false_r; done.
Qed.

(** The handler never hands 0 to the compactor: 0 stands for unbounded,
    and any other falsy number for the default. *)
Lemma maxLenArg_not_zero w args : is_zero (JNum (maxLenArg w args)) = false.
Proof.
  unfold maxLenArg. destruct (is_zero (getProp args "maxPropertyLength")); [done|].
  unfold numberOr. destruct (num_truthy (toNumber _ _)) eqn:E; [|done].
  destruct (toNumber _ _) as [| | |q]; try done. cbn in *. by destruct (Qeq_bool q 0).
Qed.

(** C1, on the code. In the compacted object the property map has the
    keys of the source other than [__proto__]; under every such key a
    string value no longer than [maxPropertyLength] is unchanged, a
    longer one is its first [maxPropertyLength] characters followed by
    the marker, any other value is unchanged, and nothing is cut when
    [maxPropertyLength] is unbounded; a tool argument
    [maxPropertyLength] of 0 stands for unbounded, so that nothing is
    cut, and no tool argument makes the handler hand 0 to the compactor.
    A property named [__proto__] is not returned at all, whatever its
    value and whatever the maximum: there the code departs from the
    claim. *)
Theorem compaction_truncates_long_strings (w : World) (item props : Rec)
    (options : CompactOptions) (m : MaxLen) (args : JsVal) :
  item !! "properties" = Some (JObj props) →
  default DEFAULT_MAX_PROPERTY_LENGTH (maxPropertyLength options) = maxLenNum m →
  let shaped := truncateProperties (JObj props) (maxLenNum m) in
  compactResult item options !! "properties" = Some (JObj shaped)
  ∧ (∀ k, k ≠ "__proto__" → (shaped !! k = None ↔ props !! k = None))
  ∧ (∀ k v, k ≠ "__proto__" → props !! k = Some v →
            ∃ v', shaped !! k = Some v' ∧ compacted_to m v v')
  ∧ shaped !! "__proto__" = None
  ∧ (getProp args "maxPropertyLength" = jnum 0 →
     maxLenArg w args = maxLenNum Unbounded
     ∧ compactResult item (compactOptionsArg w args) !! "properties"
       = Some (JObj (delete "__proto__" props)))
  ∧ is_zero (JNum (maxLenArg w args)) = false.
Proof.
  intros Hp Hm shaped. split; [|split; [|split; [|split; [|split]]]].
  - by rewrite (compactResult_properties _ _ _ Hp), Hm.
  - intros k Hk. unfold shaped. rewrite truncateProperties_lookup.
    rewrite (proj2 (String.eqb_neq _ _) Hk). by destruct (props !! k).
  - intros k v Hk Hv. exists (truncateValue (maxLenNum m) v). split.
    + unfold shaped. rewrite truncateProperties_lookup.
      by rewrite (proj2 (String.eqb_neq _ _) Hk), Hv.
    + apply truncateValue_spec.
  - unfold shaped. by rewrite truncateProperties_lookup.
  - intros Hzero. assert (maxLenArg w args = PosInf) as Hinf.
    { unfold maxLenArg. by rewrite Hzero. }
    split; [done|].
    rewrite (compactResult_properties _ _ _ Hp).
    cbn [compactOptionsArg maxPropertyLength default].
    by rewrite Hinf, truncateProperties_unbounded.
  - apply maxLenArg_not_zero.
Qed.

(** C1, as stated, fails on the code: a property named [__proto__], which
    a parsed answer can carry, is not returned, though its value is a
    string no longer than the maximum. *)
Lemma proto_property_is_dropped :
  let props : Rec := obj [("__proto__", JStr "x"); ("city", JStr "Brno")] in
  let item : Rec := obj [("id", JStr "1"); ("properties", JObj props)] in
  let options := {| maxPropertyLength := Some (num 500); includeMetadata := None |} in
  props !! "__proto__" = Some (JStr "x")
  ∧ compactResult item options !! "properties"
    = Some (JObj (obj [("city", JStr "Brno")])).
Proof. vm_compute. done. Qed.

Lemma compaction_truncates_long_strings_witness :
  let props : Rec := obj [("notes", JStr "abcdefgh"); ("city", JStr "Brno");
                          ("visits", jnum 12)] in
  let item : Rec := obj [("id", JStr "1"); ("properties", JObj props)] in
  let options := {| maxPropertyLength := Some (num 5); includeMetadata := None |} in
  item !! "properties" = Some (JObj props)
  ∧ default DEFAULT_MAX_PROPERTY_LENGTH (maxPropertyLength options) = maxLenNum (Bounded 5)
  ∧ compactResult item options !! "properties"
    = Some (JObj (obj [("notes", JStr "abcde...[truncated]"); ("city", JStr "Brno");
                       ("visits", jnum 12)])).
Proof.
  intros props item options.
  split; [reflexivity | split; [reflexivity|]].
  destruct (compaction_truncates_long_strings (sampleWorld agreeable) item props options
              (Bounded 5) (JObj ∅) eq_refl eq_refl) as [H _].
  rewrite H. vm_compute. reflexivity.
Defined.

(** ** Metadata *)

Ltac metadata_cases :=
  unfold compactResult;
  destruct (default false (includeMetadata _));
  rewrite ?lookup_setIf, ?andb_false_r;
  repeat match goal with
    | |- context [bool_decide (?a = ?b)] =>
        first [ rewrite (bool_decide_eq_true_2 (a = b)) by reflexivity
              | rewrite (bool_decide_eq_false_2 (a = b)) by discriminate ]
    end;
  rewrite ?andb_true_r, ?andb_false_r.

(** C6, as stated, fails, whichever way "carried" is read for the four
    fields alike. Read as "has a value": with [includeMetadata] true, a
    source object that carries [url] with the empty string is compacted
    without [url]. Read as "has a truthy value": a source object whose
    [archived] is false is compacted with [archived]. *)
Lemma metadata_counterexample :
  let options := {| maxPropertyLength := None; includeMetadata := Some true |} in
  (let item : Rec := obj [("id", JStr "1"); ("url", JStr EmptyString)] in
   ¬ (compactResult item options !! "url" ≠ None
      ↔ default false (includeMetadata options) = true ∧ carries item "url"))
  ∧ (let item : Rec := obj [("id", JStr "1"); ("archived", JBool false)] in
     ¬ (compactResult item options !! "archived" ≠ None
        ↔ default false (includeMetadata options) = true
          ∧ truthy (field item "archived") = true)).
Proof.
  intros options. split.
  - intros item [_ H]. apply H; [|reflexivity].
    split; [reflexivity | discriminate].
  - intros item [H _]. destruct H as [_ H]; [discriminate|]. discriminate H.
Qed.

(** C6, amended. [createdAt], [updatedAt] and [url] appear in the
    compacted object exactly when [includeMetadata] is true and the
    source value is truthy (carried, and not null, empty, zero or
    false); [archived] appears exactly when [includeMetadata] is true
    and the source carries it; a field that appears has the source
    value. *)
Theorem metadata_fields_follow_includeMetadata (item : Rec) (options : CompactOptions) :
  let out := compactResult item options in
  let on := default false (includeMetadata options) in
  (∀ k, k ∈ ["createdAt"; "updatedAt"; "url"] →
        is_Some (out !! k) ↔ on = true ∧ truthy (field item k) = true)
  ∧ (is_Some (out !! "archived") ↔ on = true ∧ carries item "archived")
  ∧ (∀ k v, k ∈ metadataFields → out !! k = Some v → v = field item k).
Proof.
  cbn zeta. split; [|split].
  - intros k Hk. rewrite !elem_of_cons, elem_of_nil in Hk.
    destruct Hk as [->|[->|[->|[]]]]; metadata_cases.
    all: try (destruct (truthy (field item _)); rewrite ?lookup_singleton_ne by done;
              (split; [intros [? ?]; done | intros [? ?]; try done; by eexists])).
    all: rewrite lookup_singleton_ne by done;
      (split; [intros [? ?]; done | intros [? _]; done]).
  - unfold carries. metadata_cases.
    + destruct (field item "archived"); rewrite ?lookup_singleton_ne by done.
      all: split; [intros [? ?]; try done | intros [? ?]; try done; by eexists].
    + rewrite lookup_singleton_ne by done. split; [intros [? ?]; done | intros [? _]; done].
  - intros k v Hk. unfold metadataFields in Hk. rewrite !elem_of_cons, elem_of_nil in Hk.
    destruct Hk as [->|[->|[->|[->|[]]]]]; metadata_cases.
    all: repeat match goal with
           | |- context [if ?c then _ else _] => destruct c
           end; rewrite ?lookup_singleton_ne by done; congruence.
Qed.

(** ** Effects: what a computation adds to the log *)

Lemma bind_ret {A B} (a : A) (k : A → M B) log : bind (ret a) k log = k a log.
Proof. done. Qed.

Lemma bind_throw {A B} (e : string) (k : A → M B) log :
  bind (throw e) k log = (inl e, log).
Proof. done. Qed.

Lemma bind_assoc {A B C} (m : M A) (f : A → M B) (g : B → M C) log :
  bind (bind m f) g log = bind m (fun x => bind (f x) g) log.
Proof. unfold bind. by destruct (m log) as [[e|a] l]. Qed.

Lemma bind_member {B} v key (k : JsVal → M B) log :
  bind (member v key) k log
  = if nullish v
    then (inl ("Cannot read properties of " +:+ (if v is JNull then "null" else "undefined")
               +:+ " (reading '" +:+ key +:+ "')"), log)
    else k (getProp v key) log.
Proof. by destruct v. Qed.

Lemma appends_ret {A} (a : A) : appends (ret a).
Proof. intros log. unfold ret. cbn. by rewrite app_nil_r. Qed.

Lemma appends_throw {A} (message : string) : appends (throw (A:=A) message).
Proof. intros log. unfold throw. cbn. by rewrite app_nil_r. Qed.

Lemma appends_bind {A B} (m : M A) (k : A → M B) :
  appends m → (∀ a, appends (k a)) → appends (bind m k).
Proof.
  intros Hm Hk log. unfold bind. rewrite (Hm log).
  destruct (m []) as [[e|a] l]; cbn.
  - done.
  - rewrite (Hk a (log ++ l)), (Hk a l). cbn. by rewrite app_assoc.
Qed.

Lemma appends_catch {A} (m h : M A) : appends m → appends h → appends (catch m h).
Proof.
  intros Hm Hh log. unfold catch. rewrite (Hm log).
  destruct (m []) as [[e|a] l]; cbn.
  - rewrite (Hh (log ++ l)), (Hh l). cbn. by rewrite app_assoc.
  - done.
Qed.

Lemma appends_when (c : bool) (m : M JsVal) : appends m → appends (when c m).
Proof.
  intros Hm. unfold when. destruct c; [|apply appends_ret].
  apply appends_bind; [done | intros; apply appends_ret].
Qed.

Lemma appends_mapM {A B} (f : A → M B) (xs : list A) :
  (∀ x, appends (f x)) → appends (mapM f xs).
Proof.
  intros Hf. induction xs as [|x xs IH]; cbn [mapM]; [apply appends_ret|].
  apply appends_bind; [done | intros y].
  apply appends_bind; [done | intros ys]. apply appends_ret.
Qed.

Lemma appends_member v k : appends (member v k).
Proof. destruct v; first [apply appends_ret | apply appends_throw]. Qed.

Lemma appends_arrayFor expr method v : appends (arrayFor expr method v).
Proof. destruct v; first [apply appends_ret | apply appends_throw]. Qed.

Lemma silent_ret {A} (a : A) : silent (ret a).
Proof. done. Qed.

Lemma silent_throw {A} (message : string) : silent (throw (A:=A) message).
Proof. done. Qed.

Lemma silent_bind {A B} (m : M A) (k : A → M B) :
  silent m → (∀ a, silent (k a)) → silent (bind m k).
Proof.
  intros Hm Hk log. unfold bind. specialize (Hm log).
  destruct (m log) as [[e|a] l]; cbn in *; [done|]. rewrite (Hk a l). done.
Qed.

Lemma silent_mapM {A B} (f : A → M B) (xs : list A) :
  (∀ x, silent (f x)) → silent (mapM f xs).
Proof.
  intros Hf. induction xs as [|x xs IH]; cbn [mapM]; [apply silent_ret|].
  apply silent_bind; [done | intros y].
  apply silent_bind; [done | intros ys]. apply silent_ret.
Qed.

Lemma silent_member v k : silent (member v k).
Proof. by destruct v. Qed.

Lemma silent_arrayFor expr method v : silent (arrayFor expr method v).
Proof. by destruct v. Qed.

Lemma silent_stringFor var v : silent (stringFor var v).
Proof. by destruct v. Qed.

Lemma silent_recordFor reading v : silent (recordFor reading v).
Proof. by destruct v. Qed.

(** ** The remote client *)

Lemma hubspot_unconfigured w path method body log :
  ¬ configured w →
  hubspot w path method body log = (inl "HUBSPOT_ACCESS_TOKEN not configured", log).
Proof.
  unfold configured, hubspot. destruct (HUBSPOT_ACCESS_TOKEN w) as [[|]|]; done.
Qed.

Lemma hubspot_configured w path method body log :
  configured w →
  hubspot w path method body log
  = (match remote w (request path method body) with
     | FetchRejected message => inl message
     | HttpFailure status text => inl ("HubSpot API " +:+ pretty status +:+ ": " +:+ text)
     | HttpSuccess json =>
         if String.eqb method "DELETE" then inr (JObj (obj [("success", JBool true)]))
         else json
     end, log ++ [request path method body]).
Proof.
  unfold configured, hubspot, request.
  destruct (HUBSPOT_ACCESS_TOKEN w) as [[|]|]; try done. intros _.
  destruct (remote w _) as [| |[|]]; try done; destruct (method =? "DELETE")%string;
    reflexivity.
Qed.

Lemma hubspot_answer w path method body log :
  configured w → method ≠ "DELETE" →
  hubspot w path method body log
  = (answer w (request path method body), log ++ [request path method body]).
Proof.
  intros Hc Hm. rewrite hubspot_configured by done. unfold answer.
  apply String.eqb_neq in Hm. rewrite Hm. by destruct (remote w _).
Qed.

Lemma bind_hubspot {B} w path method body (k : JsVal → M B) log :
  configured w → method ≠ "DELETE" →
  bind (hubspot w path method body) k log
  = match answer w (request path method body) with
    | inl e => (inl e, log ++ [request path method body])
    | inr v => k v (log ++ [request path method body])
    end.
Proof.
  intros Hc Hm. unfold bind. rewrite hubspot_answer by done. by destruct (answer w _).
Qed.

Lemma appends_hubspot w path method body : appends (hubspot w path method body).
Proof.
  intros log. destruct (HUBSPOT_ACCESS_TOKEN w) as [[|]|] eqn:E.
  - rewrite !hubspot_unconfigured by (unfold configured; rewrite E; tauto).
    cbn. by rewrite app_nil_r.
  - rewrite !hubspot_configured by (unfold configured; by rewrite E). done.
  - rewrite !hubspot_unconfigured by (unfold configured; rewrite E; tauto).
    cbn. by rewrite app_nil_r.
Qed.

(** Closes a goal [appends m] or [silent m] for [m] built from the
    operations above. *)
Ltac effects :=
  repeat first
    [ progress intros
    | apply appends_ret | apply appends_throw | apply appends_member
    | apply appends_arrayFor | apply appends_hubspot
    | apply appends_bind | apply appends_catch | apply appends_when | apply appends_mapM
    | apply silent_ret | apply silent_throw | apply silent_member
    | apply silent_arrayFor | apply silent_stringFor | apply silent_recordFor
    | apply silent_bind | apply silent_mapM
    | match goal with
      | |- appends (if ?c then _ else _) => destruct c
      | |- silent (if ?c then _ else _) => destruct c
      | |- appends (match ?x with _ => _ end) => destruct x
      | |- silent (match ?x with _ => _ end) => destruct x
      end ].






(** ** Engagements *)







Lemma getProp_lookup (m : Rec) k v : m !! k = Some v → getProp (JObj m) k = v.
Proof. intros H. unfold getProp, field. by rewrite H. Qed.








(** The scenario of the specification: the calls lookup throws, the
    emails are still returned. *)
Example engagements_calls_down :
  ∃ engagements log,
    toolResult (sampleWorld callsDown) (JStr "hubspot_get_engagements")
      (JObj (obj [("contactId", JStr "10"); ("types", JArr [JStr "calls"; JStr "emails"])])) []
    = (inr (engagementsResult "10" engagements ["calls"; "emails"]), log)
    ∧ engagements !! "calls" = Some (JArr [])
    ∧ engagements !! "emails"
      = Some (JArr [JObj (obj [("id", JStr "501");
                               ("properties",
                                JObj (obj [("hs_email_subject", JStr "Hello")]))])]).
Proof. eexists _, _. vm_compute. done. Qed.

(** ** Composite creates *)







(** The association of the company failing: the call fails after three
    requests, the deal stays. *)
Example create_deal_company_refused :
  let remote (c : Call) :=
    if String.eqb (call_path c)
         "/crm/v3/objects/deals/77/associations/companies/20/deal_to_company"
    then HttpFailure 400 "no such company" else agreeable c in
  toolResult (sampleWorld remote) (JStr "hubspot_create_deal") scenarioDeal []
  = (inl "HubSpot API 400: no such company",
     [ POST "/crm/v3/objects/deals"
            (JObj (obj [("properties", JObj (obj [("dealname", JStr "Q1 Renewal")]))]));
       PUT "/crm/v3/objects/deals/77/associations/contacts/10/deal_to_contact";
       PUT "/crm/v3/objects/deals/77/associations/companies/20/deal_to_company" ]).
Proof. vm_compute. reflexivity. Qed.

(** ** Deletes *)





(** ** Updates without a field *)




(** Through the router the refusal is a JSON-RPC error, and no request
    was made. *)
Example update_task_refused_by_the_router :
  handler (sampleWorld agreeable)
    {| req_method := "POST";
       req_body := toolsCall "hubspot_update_task" (JObj (obj [("taskId", JStr "5")]))
                     (jnum 3) |}
  = (respond 200 (Some (rpcError (-32603) NO_PROPERTY (jnum 3))), []).
Proof. vm_compute. reflexivity. Qed.

(** ** Search requests *)

Lemma silent_shapeContacts w args data : silent (shapeContacts w args data).
Proof. unfold shapeContacts. effects. Qed.

Lemma silent_shapeCompanies w args data : silent (shapeCompanies w args data).
Proof. unfold shapeCompanies. effects. Qed.

Lemma silent_searchPage data : silent (searchPage data).
Proof. unfold searchPage, idAndProperties. effects. Qed.











(** ** Limits *)













(** ** Unknown tools *)

Lemma selectCase_none name (cs : list (string * (JsVal → M JsVal))) :
  name ∉ cs.*1 → selectCase name cs = None.
Proof.
  induction cs as [|[label body] cs IH]; [done|]. cbn [selectCase fmap list_fmap fst].
  intros Hn. apply not_elem_of_cons in Hn as [Hne Hn].
  apply String.eqb_neq in Hne. rewrite Hne. by apply IH.
Qed.

(** The [switch] has a case for each tool of the catalog, and no other. *)
Lemma cases_are_the_catalog w : (cases w).*1 = TOOLS.
Proof. reflexivity. Qed.

(** C3. A [tools/call] request whose tool name is not in the catalog is
    answered with HTTP 200 and a JSON-RPC error of code -32603 whose
    message is "Unknown tool: " followed by the name, the id of the
    request echoed; the handler returns this response (it does not
    throw) and makes no request to the remote system. *)
Theorem unknown_tool_is_an_rpc_error (w : World) (body params : Rec) (name : string) :
  body !! "method" = Some (JStr "tools/call") →
  body !! "params" = Some (JObj params) →
  params !! "name" = Some (JStr name) →
  name ∉ TOOLS →
  handler w {| req_method := "POST"; req_body := JObj body |}
  = ({| res_status := 200; res_headers := CORS;
        res_json := Some (rpcError (-32603) ("Unknown tool: " +:+ name) (field body "id")) |},
     [])
  ∧ contains ("Unknown tool: " +:+ name) name.
Proof.
  intros Hm Hp Hn Hnot. split; [|apply contains_suffix].
  assert (field body "method" = JStr "tools/call") as Hm' by (unfold field; by rewrite Hm).
  assert (field body "params" = JObj params) as Hp' by (unfold field; by rewrite Hp).
  assert (field params "name" = JStr name) as Hn' by (unfold field; by rewrite Hn).
  unfold handler, route. cbn [req_method req_body String.eqb Ascii.eqb Bool.eqb negb].
  cbn [destructure]. rewrite bind_ret. cbn [getProp]. rewrite Hm', Hp'.
  change (is_string (JStr "tools/call") "initialize") with false.
  change (is_string (JStr "tools/call") "tools/list") with false.
  change (is_string (JStr "tools/call") "tools/call") with true.
  cbn iota. rewrite bind_member. cbn [nullish getProp]. rewrite Hn'.
  unfold handleTool, toolResult.
  rewrite selectCase_none by by rewrite cases_are_the_catalog.
  rewrite bind_assoc, bind_throw. done.
Qed.

Lemma unknown_tool_is_an_rpc_error_witness :
  let params : Rec := obj [("name", JStr "hubspot_merge_contacts"); ("arguments", JObj ∅)] in
  let body : Rec := obj [("jsonrpc", JStr "2.0"); ("method", JStr "tools/call");
                         ("params", JObj params); ("id", jnum 7)] in
  body !! "method" = Some (JStr "tools/call")
  ∧ body !! "params" = Some (JObj params)
  ∧ params !! "name" = Some (JStr "hubspot_merge_contacts")
  ∧ ("hubspot_merge_contacts" ∉ TOOLS)
  ∧ handler (sampleWorld agreeable) {| req_method := "POST"; req_body := JObj body |}
    = (respond 200 (Some (rpcError (-32603) "Unknown tool: hubspot_merge_contacts" (jnum 7))),
       []).
Proof.
  intros params body.
  assert (Hnot : "hubspot_merge_contacts" ∉ TOOLS).
  { unfold TOOLS. intros H.
    repeat (apply elem_of_cons in H as [H|H]; [discriminate|]).
    by apply elem_of_nil in H. }
  split; [reflexivity|]. split; [reflexivity|]. split; [reflexivity|]. split; [exact Hnot|].
  exact (proj1 (unknown_tool_is_an_rpc_error (sampleWorld agreeable) body params
                  "hubspot_merge_contacts" eq_refl eq_refl eq_refl Hnot)).
Defined.

(** * Further properties of the code *)

(** ** The client-side filter as a projection *)




(** ** Truncation applied twice *)

Lemma string_length_app (s t : string) :
  String.length (s +:+ t) = String.length s + String.length t.
Proof. induction s as [|c s IH]; [done|]. rewrite append_cons. cbn. by rewrite IH. Qed.

Lemma substring_length (n : nat) (s : string) :
  String.length (String.substring 0 n s) = Nat.min n (String.length s).
Proof.
  revert s. induction n as [|n IH]; intros s; [by destruct s|].
  destruct s as [|c s]; [done|]. cbn. by rewrite IH.
Qed.

Lemma substring_app (pre t : string) :
  String.substring 0 (String.length pre) (pre +:+ t) = pre.
Proof.
  induction pre as [|c pre IH]; [by destruct t|].
  rewrite append_cons. cbn. by rewrite IH.
Qed.

Lemma num_gt_fin (L : nat) (q : Q) :
  num_gt (jlen L) (Fin q) = true ↔ (q < inject_Z (Z.of_nat L))%Q.
Proof.
  unfold num_gt, jlen, num. rewrite negb_true_iff. split.
  - intros H. apply Qnot_le_lt. intros Hle. apply Qle_bool_iff in Hle. congruence.
  - intros H. apply not_true_is_false. intros Hle. apply Qle_bool_iff in Hle.
    by apply (Qlt_not_le _ _ H).
Qed.

(** The end of the cut, and the fact that the cut text with its marker is
    again longer than the limit. *)
Lemma cut_is_stable (maxLength : JsNum) (L : nat) :
  num_gt (jlen L) maxLength = true →
  let e := substring_end maxLength L in
  e ≤ L
  ∧ num_gt (jlen (e + String.length TRUNCATED)) maxLength = true
  ∧ substring_end maxLength (e + String.length TRUNCATED) = e.
Proof.
  destruct maxLength as [| | |q]; cbn zeta; try done.
  - intros _. cbn [substring_end]. split; [lia|]. done.
  - intros Hgt. apply num_gt_fin in Hgt. cbn [substring_end].
    destruct (Qle_bool q 0) eqn:E0.
    + apply Qle_bool_iff in E0. split; [lia|]. split; [|done].
      apply num_gt_fin. eapply Qle_lt_trans; [exact E0|]. done.
    + assert (0 < q)%Q as Hpos.
      { apply Qnot_le_lt. intros H. apply Qle_bool_iff in H. congruence. }
      assert (0 <= Qfloor q)%Z as Hf0.
      { change 0%Z with (Qfloor 0). apply Qfloor_resp_le. by apply Qlt_le_weak. }
      assert (Qfloor q < Z.of_nat L)%Z as HfL.
      { rewrite Zlt_Qlt. eapply Qle_lt_trans; [apply Qfloor_le | exact Hgt]. }
      assert (Z.to_nat (Qfloor q) `min` L = Z.to_nat (Qfloor q)) as -> by lia.
      split; [lia|]. split.
      * apply num_gt_fin. eapply Qlt_le_trans; [apply Qlt_floor|].
        rewrite <- Zle_Qle. cbn. lia.
      * lia.
Qed.

Lemma truncateValue_idempotent (maxLength : JsNum) (v : JsVal) :
  truncateValue maxLength (truncateValue maxLength v) = truncateValue maxLength v.
Proof.
  destruct v as [| | | |s| |]; try done. cbn [truncateValue].
  destruct (num_gt (jlen (String.length s)) maxLength) eqn:Hgt; cbn [truncateValue];
    [|by rewrite Hgt].
  destruct (cut_is_stable maxLength (String.length s) Hgt) as (He & Hgt' & Hend).
  set (e := substring_end maxLength (String.length s)) in *.
  assert (String.length (String.substring 0 e s) = e) as Hl
    by (rewrite substring_length; lia).
  rewrite string_length_app, Hl, Hgt', Hend.
  rewrite <- Hl at 1. by rewrite substring_app.
Qed.

Lemma truncateValue_length (n : nat) (s out : string) :
  truncateValue (jlen n) (JStr s) = JStr out →
  String.length out ≤ n + String.length TRUNCATED
  ∧ (String.length s ≤ n → out = s).
Proof.
  cbn [truncateValue]. rewrite num_gt_jlen, substring_end_jlen.
  case_bool_decide as Hlt; intros [= <-].
  - rewrite string_length_app, substring_length. split; lia.
  - split; [lia | done].
Qed.

(** Every value of a truncated map is a truncated value. *)
Lemma truncateProperties_values (o : JsVal) (maxLength : JsNum) k v :
  truncateProperties o maxLength !! k = Some v →
  k ≠ "__proto__" ∧ ∃ v0, v = truncateValue maxLength v0.
Proof.
  unfold truncateProperties.
  assert (∀ l (acc : Rec),
            (∀ k v, acc !! k = Some v →
                    k ≠ "__proto__" ∧ ∃ v0, v = truncateValue maxLength v0) →
            ∀ k v, fold_left (fun result kv =>
                                assign kv.1 (truncateValue maxLength kv.2) result)
                     l acc !! k = Some v →
                   k ≠ "__proto__" ∧ ∃ v0, v = truncateValue maxLength v0) as H.
  { induction l as [|[k0 v0] l IH]; intros acc Hacc k' v'; cbn [fold_left]; [apply Hacc|].
    apply IH. intros k1 v1. cbn [fst snd]. rewrite lookup_assign.
    destruct (String.eqb_spec k0 "__proto__") as [->|Hk0]; [apply Hacc|].
    case_bool_decide as E; [|apply Hacc].
    subst. intros [= <-]. split; [done | by eexists]. }
  apply H. intros k' v'. by rewrite lookup_empty.
Qed.

Lemma truncateProperties_fixed (o : JsVal) (maxLength : JsNum) :
  truncateProperties (JObj (truncateProperties o maxLength)) maxLength
  = truncateProperties o maxLength.
Proof.
  apply map_eq. intros k. rewrite truncateProperties_lookup.
  destruct (truncateProperties o maxLength !! k) as [v|] eqn:E.
  - apply truncateProperties_values in E as [Hk [v0 ->]].
    rewrite (proj2 (String.eqb_neq _ _) Hk). cbn. by rewrite truncateValue_idempotent.
  - by destruct (String.eqb k "__proto__").
Qed.

(** ** The shape of a compacted object *)

Ltac decide_keys :=
  repeat match goal with
    | |- context [bool_decide (?a = ?b)] =>
        first [ rewrite (bool_decide_eq_true_2 (a = b)) by reflexivity
              | rewrite (bool_decide_eq_false_2 (a = b)) by congruence ]
    end.

Lemma compactResult_lookup (item : Rec) (options : CompactOptions) (k : string) :
  compactResult item options !! k = compactField item options k.
Proof.
  unfold compactResult, compactField.
  destruct (String.eqb_spec k "id") as [->|Hid];
  [|destruct (String.eqb_spec k "properties") as [->|Hp];
   [|destruct (String.eqb_spec k "createdAt") as [->|Hc];
    [|destruct (String.eqb_spec k "updatedAt") as [->|Hu];
     [|destruct (String.eqb_spec k "archived") as [->|Ha];
      [|destruct (String.eqb_spec k "url") as [->|Hurl]]]]]].
  all: destruct (default false (includeMetadata options)); rewrite !lookup_setIf;
    decide_keys; rewrite ?andb_true_r, ?andb_false_r; cbn [andb].
  all: repeat match goal with
         | |- context [if ?c then _ else _] => destruct c eqn:?
         | |- context [match field ?i "archived" with _ => _ end] =>
             destruct (field i "archived") eqn:?
         end.
  all: rewrite ?lookup_singleton_eq, ?lookup_singleton_ne by congruence; congruence.
Qed.

Lemma field_compactResult item options k :
  field (compactResult item options) k = default JUndefined (compactField item options k).
Proof. unfold field. by rewrite compactResult_lookup. Qed.

(** X2. A compacted object has no key other than [id], [properties],
    [createdAt], [updatedAt], [archived] and [url]: every other field of
    the source object is dropped. [id] is always set (to the source's
    [id], [undefined] when it has none); [properties] is set exactly when
    the source's [properties] is a truthy object; and with
    [includeMetadata] off no key other than [id] and [properties] is
    set. *)
Theorem compactResult_keeps_six_keys (item : Rec) (options : CompactOptions) :
  let out := compactResult item options in
  (∀ k, is_Some (out !! k) → k ∈ compactKeys)
  ∧ out !! "id" = Some (field item "id")
  ∧ (is_Some (out !! "properties")
     ↔ truthy (field item "properties") && is_object (field item "properties") = true)
  ∧ (default false (includeMetadata options) = false →
     ∀ k, is_Some (out !! k) → k = "id" ∨ k = "properties").
Proof.
  cbn zeta. split; [|split; [|split]].
  - intros k. rewrite compactResult_lookup. unfold compactField, compactKeys.
    rewrite !elem_of_cons.
    repeat match goal with
      | |- context [String.eqb k ?s] => destruct (String.eqb_spec k s) as [->|?]
      end; try tauto.
    by intros [? ?].
  - by rewrite compactResult_lookup.
  - rewrite compactResult_lookup. unfold compactField.
    change (String.eqb "properties" "id") with false.
    change (String.eqb "properties" "properties") with true. cbn iota.
    destruct (truthy _ && is_object _); split; first [done | by eexists | by intros [? ?]].
  - intros Hoff k. rewrite compactResult_lookup. unfold compactField. rewrite Hoff.
    cbn [andb].
    repeat match goal with
      | |- context [String.eqb k ?s] => destruct (String.eqb_spec k s) as [->|?]
      end; try tauto.
    all: try (by intros [? ?]).
    destruct (field item "archived"); by intros [? ?].
Qed.

(** X3. Compacting an object that is already compacted, with the same
    options, changes nothing: a string that was cut is cut at the same
    place and gets the same marker, so it comes out as it went in. *)
Theorem compaction_is_idempotent (item : Rec) (options : CompactOptions) :
  compactResult (compactResult item options) options = compactResult item options.
Proof.
  apply map_eq. intros k. rewrite !compactResult_lookup.
  unfold compactField at 1. rewrite !field_compactResult.
  unfold compactField.
  change (String.eqb "id" "id") with true.
  change (String.eqb "properties" "id") with false.
  change (String.eqb "properties" "properties") with true.
  change (String.eqb "createdAt" "id") with false.
  change (String.eqb "createdAt" "properties") with false.
  change (String.eqb "createdAt" "createdAt") with true.
  change (String.eqb "updatedAt" "id") with false.
  change (String.eqb "updatedAt" "properties") with false.
  change (String.eqb "updatedAt" "createdAt") with false.
  change (String.eqb "updatedAt" "updatedAt") with true.
  change (String.eqb "archived" "id") with false.
  change (String.eqb "archived" "properties") with false.
  change (String.eqb "archived" "createdAt") with false.
  change (String.eqb "archived" "updatedAt") with false.
  change (String.eqb "archived" "archived") with true.
  change (String.eqb "url" "id") with false.
  change (String.eqb "url" "properties") with false.
  change (String.eqb "url" "createdAt") with false.
  change (String.eqb "url" "updatedAt") with false.
  change (String.eqb "url" "archived") with false.
  change (String.eqb "url" "url") with true.
  cbn iota.
  repeat match goal with
    | |- context [String.eqb k ?s] => destruct (String.eqb k s)
    end; try done.
  - destruct (truthy (field item "properties") && is_object (field item "properties"));
      cbn [default from_option id truthy is_object andb]; [|done].
    by rewrite truncateProperties_fixed.
  - destruct (default false (includeMetadata options)); cbn [andb]; [|done].
    destruct (truthy (field item "createdAt")) eqn:E; cbn [default from_option id]; [by rewrite E | done].
  - destruct (default false (includeMetadata options)); cbn [andb]; [|done].
    destruct (truthy (field item "updatedAt")) eqn:E; cbn [default from_option id]; [by rewrite E | done].
  - destruct (field item "archived") eqn:E; try done;
      destruct (default false (includeMetadata options)); done.
  - destruct (default false (includeMetadata options)); cbn [andb]; [|done].
    destruct (truthy (field item "url")) eqn:E; cbn [default from_option id]; [by rewrite E | done].
Qed.

(** X4. When the source's [properties] is an object and the maximum
    length in force is the non-negative integer [n], the compacted
    [properties] has the keys of the source's other than [__proto__],
    which is never among them, and each of its string values has at
    most [n] characters plus the length of the marker. *)
Theorem compacted_strings_are_bounded (item props : Rec) (options : CompactOptions)
    (n : nat) :
  item !! "properties" = Some (JObj props) →
  default DEFAULT_MAX_PROPERTY_LENGTH (maxPropertyLength options) = jlen n →
  ∃ shaped,
    compactResult item options !! "properties" = Some (JObj shaped)
    ∧ (∀ k, is_Some (shaped !! k) ↔ is_Some (props !! k) ∧ k ≠ "__proto__")
    ∧ (∀ k s, shaped !! k = Some (JStr s) →
              String.length s ≤ n + String.length TRUNCATED).
Proof.
  intros Hp Hn. eexists. split; [by apply compactResult_properties|]. split.
  - intros k. rewrite truncateProperties_lookup.
    destruct (String.eqb_spec k "__proto__") as [->|Hk].
    + split; [by intros [? ?] | by intros [_ ?]].
    + rewrite fmap_is_Some. tauto.
  - intros k s. rewrite Hn, truncateProperties_lookup.
    destruct (String.eqb k "__proto__"); [done|].
    destruct (props !! k) as [v|]; [|done]. cbn. intros [= Hv].
    destruct v; try done. by apply truncateValue_length in Hv as [? _].
Qed.

Lemma compacted_strings_are_bounded_witness :
  let props : Rec := obj [("notes", JStr "abcdefgh")] in
  let item : Rec := obj [("id", JStr "1"); ("properties", JObj props)] in
  let options := {| maxPropertyLength := Some (num 5); includeMetadata := None |} in
  item !! "properties" = Some (JObj props)
  ∧ default DEFAULT_MAX_PROPERTY_LENGTH (maxPropertyLength options) = jlen 5
  ∧ ∃ shaped,
      compactResult item options !! "properties" = Some (JObj shaped)
      ∧ ∀ k s, shaped !! k = Some (JStr s) → String.length s ≤ 19.
Proof.
  intros props item options. split; [reflexivity|]. split; [reflexivity|].
  destruct (compacted_strings_are_bounded item props options 5 eq_refl eq_refl)
    as (shaped & H1 & _ & H2).
  exists shaped. split; [exact H1 | exact H2].
Defined.

(** ** The JSON-RPC router *)

Lemma handleTool_run w name args log :
  handleTool w name args log
  = match toolResult w name args log with
    | (inl e, log') => (inl e, log')
    | (inr result, log') => (inr (content (platform w) result), log')
    end.
Proof. unfold handleTool, bind. by destruct (toolResult w name args log) as [[?|?] ?]. Qed.

Lemma route_answers w body log :
  match route w body log with
  | (inl message, _) => True
  | (inr response, _) =>
      ∃ payload, response = respond 200 (Some payload) ∧ envelope body payload
                 ∧ nullish body = false
  end.
Proof.
  unfold route. destruct body; cbn [destructure]; rewrite ?bind_throw; try done; rewrite bind_ret.
  all: repeat match goal with
         | |- context [if ?c then _ else _] => destruct c
         end.
  all: try (cbn [ret]; eexists; split; [reflexivity|]; split; [|done];
            first [ left; by eexists | right; left; by eexists ]).
  all: rewrite bind_member; destruct (nullish _); [done|].
  all: unfold bind; rewrite handleTool_run; destruct (toolResult _ _ _ _) as [[?|?] ?]; [done|].
  all: cbn [ret]; eexists; split; [reflexivity|]; split; [|done]; left; by eexists.
Qed.

(** X5. [handler] always answers, and always with the three CORS
    headers. An OPTIONS request gets status 200 with no body and a
    request with any method other than OPTIONS and POST gets status 405
    with [{error: "Method not allowed"}]; neither reaches the remote
    system. A POST request always gets status 200 with a JSON-RPC 2.0
    envelope carrying the id of the request body ([undefined] when there
    is no body): a result, an error -32601 or an error -32603. *)
Theorem router_always_answers (w : World) (req : HttpRequest) :
  let response := (handler w req).1 in
  res_headers response = CORS
  ∧ (req_method req = "OPTIONS" →
     response = respond 200 None ∧ (handler w req).2 = [])
  ∧ (req_method req ≠ "OPTIONS" → req_method req ≠ "POST" →
     response = respond 405 (Some (JObj (obj [("error", JStr "Method not allowed")])))
     ∧ (handler w req).2 = [])
  ∧ (req_method req = "POST" →
     ∃ payload, response = respond 200 (Some payload) ∧ envelope (req_body req) payload).
Proof.
  cbn zeta. unfold handler.
  destruct (String.eqb (req_method req) "OPTIONS") eqn:Eo.
  { apply String.eqb_eq in Eo. repeat split; try done.
    intros Hp. rewrite Hp in Eo. discriminate. }
  apply String.eqb_neq in Eo.
  destruct (String.eqb (req_method req) "POST") eqn:Ep; cbn [negb].
  - apply String.eqb_eq in Ep.
    pose proof (route_answers w (req_body req) []) as H.
    destruct (route w (req_body req) []) as [[message|response] log].
    + repeat split; try done. intros _. eexists. split; [reflexivity|].
      right; right. by eexists.
    + destruct H as (payload & -> & Henv & _). repeat split; try done.
      intros _. by exists payload.
  - apply String.eqb_neq in Ep. repeat split; done.
Qed.




(** X7. The two discovery methods need neither a token nor the remote
    system: [initialize] is answered with the protocol version
    2024-11-05, the [tools] capability and the server name and version,
    and [tools/list] with the catalog, whose names are those of [TOOLS]
    in their order; both echo the id and make no request. *)
Theorem discovery_needs_no_remote (w : World) (body : JsVal) :
  (getProp body "method" = JStr "initialize" →
   handler w (post body) = (respond 200 (Some (rpcResult initializeResult (getProp body "id"))), []))
  ∧ (getProp body "method" = JStr "tools/list" →
     ∃ tools,
       handler w (post body)
       = (respond 200 (Some (rpcResult (JObj (obj [("tools", JArr tools)]))
                               (getProp body "id"))), [])
       ∧ map (fun t => getProp t "name") tools = map JStr TOOLS).
Proof.
  assert (Hd : ∀ m, getProp body "method" = JStr m →
                    destructure body = ret (JStr m)).
  { intros m Hm. destruct body; try done; cbn [destructure]; by rewrite Hm. }
  split; intros Hm; unfold handler, post, route;
    cbn [req_method req_body String.eqb Ascii.eqb Bool.eqb negb];
    rewrite (Hd _ Hm), bind_ret.
  - reflexivity.
  - eexists. split; [reflexivity|]. reflexivity.
Qed.

(** X8. A [tools/call] request whose [params] is an object runs the
    tool [params.name] on [params.arguments] (on [{}] when that is
    falsy), starting from an empty log. When the tool returns, the
    answer is the result envelope around one text content item holding
    the [JSON.stringify] of what it returned; when it throws, the answer
    is the error -32603 with the message thrown. The requests made are
    those of the tool. *)
Theorem tools_call_wraps_the_tool (w : World) (body params : Rec) :
  body !! "method" = Some (JStr "tools/call") →
  body !! "params" = Some (JObj params) →
  let name := field params "name" in
  let args := jor (field params "arguments") (JObj ∅) in
  let id := field body "id" in
  handler w (post (JObj body))
  = match toolResult w name args [] with
    | (inl message, log) => (respond 200 (Some (rpcError (-32603) message id)), log)
    | (inr result, log) =>
        (respond 200 (Some (rpcResult (content (platform w) result) id)), log)
    end.
Proof.
  intros Hm Hp name args id.
  assert (field body "method" = JStr "tools/call") as Hm' by (unfold field; by rewrite Hm).
  assert (field body "params" = JObj params) as Hp' by (unfold field; by rewrite Hp).
  unfold handler, post, route.
  cbn [req_method req_body String.eqb Ascii.eqb Bool.eqb negb].
  cbn [destructure]. rewrite bind_ret. cbn [getProp]. rewrite Hm', Hp'.
  change (is_string (JStr "tools/call") "initialize") with false.
  change (is_string (JStr "tools/call") "tools/list") with false.
  change (is_string (JStr "tools/call") "tools/call") with true.
  cbn iota. rewrite bind_member. cbn [nullish getProp].
  fold name. fold args. fold id.
  unfold bind. rewrite handleTool_run.
  by destruct (toolResult w name args []) as [[?|?] ?].
Qed.

Lemma tools_call_wraps_the_tool_witness :
  let params : Rec := obj [("name", JStr "hubspot_delete_deal");
                           ("arguments", JObj (obj [("id", JStr "42")]))] in
  let body : Rec := obj [("jsonrpc", JStr "2.0"); ("method", JStr "tools/call");
                         ("params", JObj params); ("id", jnum 9)] in
  body !! "method" = Some (JStr "tools/call")
  ∧ body !! "params" = Some (JObj params)
  ∧ handler (sampleWorld agreeable) (post (JObj body))
    = (respond 200
         (Some (rpcResult
                  (content samplePlatform
                     (JObj (obj [("success", JBool true); ("deleted", JStr "42")])))
                  (jnum 9))),
       [DELETE "/crm/v3/objects/deals/42"]).
Proof.
  intros params body. split; [reflexivity|]. split; [reflexivity|].
  rewrite (tools_call_wraps_the_tool (sampleWorld agreeable) body params eq_refl eq_refl).
  vm_compute. reflexivity.
Defined.

Lemma selectCase_some name (cs : list (string * (JsVal → M JsVal))) :
  name ∈ cs.*1 → is_Some (selectCase name cs).
Proof.
  induction cs as [|[label body] cs IH]; cbn [selectCase fmap list_fmap fst].
  - by intros ?%elem_of_nil.
  - destruct (String.eqb name label) eqn:E; [by eexists|].
    apply String.eqb_neq in E. intros [?|?]%elem_of_cons; [done | by apply IH].
Qed.

(** X9. The catalog and the dispatcher agree: a name has a case in the
    [switch] of [handleTool] exactly when it is listed in [TOOLS], and
    no name is listed twice. *)
Theorem catalog_is_dispatched (w : World) (name : string) :
  (name ∈ TOOLS ↔ is_Some (selectCase name (cases w)))
  ∧ NoDup TOOLS.
Proof.
  split; [split|].
  - intros H. apply selectCase_some. by rewrite cases_are_the_catalog.
  - intros [body Hb]. destruct (decide (name ∈ TOOLS)) as [|Hn]; [done|].
    rewrite selectCase_none in Hb by by rewrite cases_are_the_catalog. done.
  - apply (bool_decide_unpack (NoDup TOOLS)). vm_compute. exact I.
Qed.

(** ** Tools without a token, and tools whose request fails *)










Ltac enter_tool w :=
  unfold toolResult, cases; cbn [selectCase String.eqb Ascii.eqb Bool.eqb];
  unfold hubspot_list_contacts, hubspot_get_contact, hubspot_create_contact,
    hubspot_update_contact, hubspot_delete_contact, hubspot_search_contacts,
    hubspot_list_companies, hubspot_get_company, hubspot_create_company,
    hubspot_update_company, hubspot_delete_company, hubspot_search_companies,
    hubspot_contact_properties, hubspot_company_properties, hubspot_list_owners,
    hubspot_get_owner, hubspot_log_email, hubspot_create_note, hubspot_create_task,
    hubspot_search_tasks, hubspot_get_deal, hubspot_create_deal,
    hubspot_search_deals, hubspot_delete_deal,
    hubspot_deal_properties, hubspot_list_pipelines.








Ltac still :=
  intros;
  first [ apply silent_shapeContacts | apply silent_shapeCompanies | apply silent_searchPage
        | unfold propertyRows; effects ].



(** ** Pages of contacts *)




(** ** How many requests a tool makes *)

Lemma asks_silent Q {A} (m : M A) n : silent m → asks Q n m.
Proof. intros H log. exists []. rewrite app_nil_r. split; [apply H|]. split; [cbn; lia | done]. Qed.

Lemma asks_weaken Q {A} (m : M A) n n' : n ≤ n' → asks Q n m → asks Q n' m.
Proof. intros Hn H log. destruct (H log) as (l & ? & ? & ?). exists l. split; [done|]. split; [lia | done]. Qed.

Lemma asks_bind Q {A B} (m : M A) (k : A → M B) n1 n2 :
  asks Q n1 m → (∀ a, asks Q n2 (k a)) → asks Q (n1 + n2) (bind m k).
Proof.
  intros Hm Hk log. unfold bind. destruct (Hm log) as (l1 & H1 & Hl1 & HQ1).
  destruct (m log) as [[e|a] log1]; cbn in H1; subst.
  - exists l1. split; [done|]. split; [lia | done].
  - destruct (Hk a (log ++ l1)) as (l2 & H2 & Hl2 & HQ2).
    exists (l1 ++ l2). rewrite H2, app_assoc. split; [done|].
    split; [rewrite length_app; lia | by apply Forall_app].
Qed.

Lemma asks_catch Q {A} (m h : M A) n : asks Q n m → silent h → asks Q n (catch m h).
Proof.
  intros Hm Hh log. unfold catch. destruct (Hm log) as (l1 & H1 & Hl1 & HQ1).
  destruct (m log) as [[e|a] log1]; cbn in H1; subst.
  - exists l1. by rewrite Hh.
  - by exists l1.
Qed.

Lemma asks_hubspot Q w path method body :
  Q (request path method body) → asks Q 1 (hubspot w path method body).
Proof.
  intros HQ log. destruct (HUBSPOT_ACCESS_TOKEN w) as [[|]|] eqn:E.
  1,3: rewrite hubspot_unconfigured by (unfold configured; rewrite E; tauto);
    exists []; rewrite app_nil_r; (split; [done|]); (split; [cbn; lia | done]).
  rewrite hubspot_configured by (unfold configured; by rewrite E).
  exists [request path method body]. split; [done|]. split; [done|]. by apply Forall_singleton.
Qed.

Lemma asks_request_then_silent Q {B} w path method body (k : JsVal → M B) :
  Q (request path method body) → (∀ v, silent (k v)) →
  asks Q 1 (bind (hubspot w path method body) k).
Proof.
  intros HQ Hk. change 1 with (1 + 0).
  apply asks_bind; [by apply asks_hubspot | intros; by apply asks_silent].
Qed.

Lemma asks_when Q c (m : M JsVal) n : asks Q n m → asks Q n (when c m).
Proof.
  intros Hm. unfold when. destruct c; [|by apply asks_silent].
  replace n with (n + 0) by lia. apply asks_bind; [done | intros; by apply asks_silent].
Qed.

Lemma asks_fetchEngagements (Q : Call → Prop) w contactId limit type :
  Q (GET (associationsPath contactId type)) →
  (∀ ids, Q (POST (batchReadPath type) (batchReadBody type ids))) →
  asks Q 2 (engagementsOfType w contactId limit type).
Proof.
  intros Hget Hpost.
  unfold engagementsOfType, fetchEngagements. apply asks_catch; [|apply silent_ret].
  change 2 with (1 + (0 + 1)). apply asks_bind; [by apply asks_hubspot|]. intros associations.
  apply asks_bind; [apply asks_silent, silent_member|]. intros assocResults.
  destruct (nonEmptyResults w assocResults); [|apply asks_silent, silent_ret].
  change 1 with (0 + (0 + 1)). apply asks_bind; [apply asks_silent, silent_arrayFor|].
  intros found. apply asks_bind.
  { apply asks_silent, silent_mapM. intros. apply silent_member. }
  intros objectIds. apply asks_request_then_silent; [apply Hpost|]. intros batchResponse.
  unfold idAndProperties. effects.
Qed.

Lemma asks_fanOut (Q : Call → Prop) w contactId limit types acc :
  (∀ type, type ∈ types →
     Q (GET (associationsPath contactId type))
     ∧ ∀ ids, Q (POST (batchReadPath type) (batchReadBody type ids))) →
  asks Q (2 * length types) (fanOut w contactId limit types acc).
Proof.
  revert acc. induction types as [|t rest IH]; intros acc HQ; cbn [fanOut].
  - apply asks_silent, silent_ret.
  - replace (2 * length (t :: rest)) with (2 + 2 * length rest) by (cbn; lia).
    apply asks_bind.
    + apply asks_fetchEngagements; apply HQ, elem_of_cons; by left.
    + intros. apply IH. intros type Hin. apply HQ, elem_of_cons. by right.
Qed.

Ltac asks_one :=
  first [ apply asks_request_then_silent; [reflexivity | still]
        | apply asks_hubspot; reflexivity ].

(** X13. Whatever the token, the arguments and the answers of the
    remote system, a tool call makes at most [budget] requests: two for
    each type fetched by [hubspot_get_engagements], three for
    [hubspot_create_deal], two for logging an email and creating a note
    or a task, one for every other tool of the catalog and none for an
    unknown name; and the path of every request starts with "/crm/v". *)
Theorem tools_keep_to_their_budget (w : World) (name : string) (args : JsVal) :
  asks crmPath (budget name args) (toolResult w (JStr name) args).
Proof.
  destruct (decide (name ∈ TOOLS)) as [Hin|Hn].
  2:{ unfold toolResult. rewrite selectCase_none by by rewrite cases_are_the_catalog.
      apply asks_silent, silent_throw. }
  unfold TOOLS in Hin. rewrite !elem_of_cons, elem_of_nil in Hin.
  repeat (destruct Hin as [->|Hin]; [ try (enter_tool w; asks_one) | ]); try done.
  - (* engagements *)
    change (toolResult w (JStr "hubspot_get_engagements") args)
      with (hubspot_get_engagements w args).
    unfold hubspot_get_engagements.
    change (budget "hubspot_get_engagements" args) with (2 * length (typesToFetch args)).
    replace (2 * length (typesToFetch args)) with (2 * length (typesToFetch args) + 0) by lia.
    apply asks_bind; [|intros; apply asks_silent, silent_ret].
    apply asks_fanOut. intros type _. split; [|intros ids]; unfold crmPath; reflexivity.
  - enter_tool w. change (budget "hubspot_log_email" args) with (1 + (0 + (1 + 0))).
    apply asks_bind; [by apply asks_hubspot|]. intros.
    apply asks_bind; [apply asks_silent, silent_member|]. intros.
    apply asks_bind; [by apply asks_hubspot | intros; apply asks_silent, silent_ret].
  - enter_tool w. change (budget "hubspot_create_note" args) with (1 + (0 + (1 + 0))).
    apply asks_bind; [by apply asks_hubspot|]. intros.
    apply asks_bind; [apply asks_silent, silent_member|]. intros.
    apply asks_bind; [by apply asks_hubspot | intros; apply asks_silent, silent_ret].
  - enter_tool w. change (budget "hubspot_create_task" args) with (1 + (0 + (1 + 0))).
    apply asks_bind; [by apply asks_hubspot|]. intros.
    apply asks_bind; [apply asks_silent, silent_member|]. intros.
    apply asks_bind; [by apply asks_hubspot | intros; apply asks_silent, silent_ret].
  - change (toolResult w (JStr "hubspot_update_task") args)
      with (hubspot_update_task w args).
    unfold hubspot_update_task. destruct (_ =? 0)%nat; [apply asks_silent, silent_throw|].
    apply asks_request_then_silent; [reflexivity | intros; effects].
  - enter_tool w. change (budget "hubspot_create_deal" args) with (1 + (1 + (1 + 0))).
    apply asks_bind; [by apply asks_hubspot|]. intros dealData.
    apply asks_bind.
    { apply asks_when. change 1 with (0 + 1).
      apply asks_bind; [apply asks_silent, silent_member | intros; by apply asks_hubspot]. }
    intros. apply asks_bind.
    { apply asks_when. change 1 with (0 + 1).
      apply asks_bind; [apply asks_silent, silent_member | intros; by apply asks_hubspot]. }
    intros. apply asks_silent. effects.
  - change (toolResult w (JStr "hubspot_update_deal") args)
      with (hubspot_update_deal w args).
    unfold hubspot_update_deal. destruct (_ =? 0)%nat; [apply asks_silent, silent_throw|].
    apply asks_request_then_silent; [reflexivity | intros; effects].
Qed.

(** ** What the engagements tool asks, and what an update sends *)










(** ** Pages, and identifiers that are missing *)









(** ** Answers passed on, and rows projected *)










(** ** Pipelines *)

Lemma mapM_stages (stages : list JsVal) log :
  Forall (fun s => nullish s = false) stages →
  mapM (fun s => sid <- member s "id" ;;
                 ret (JObj (obj [("id", sid); ("label", getProp s "label");
                                 ("displayOrder", getProp s "displayOrder")])))
       stages log
  = (inr (map stageOf stages), log).
Proof.
  intros Hl. revert log. induction Hl as [|s l Hs _ IH]; intros log; [done|].
  cbn [mapM map]. rewrite bind_assoc, bind_member, Hs, bind_ret. unfold bind at 1.
  by rewrite IH.
Qed.

(** X22. With the token configured and the pipelines request answered
    by an object with an array under [results]: when every pipeline
    lists its stages, [hubspot_list_pipelines] returns, for each
    pipeline in order, its [id], its [label] and its stages with their
    [id], [label] and [displayOrder] only, after the one GET request;
    when the first pipeline has no array of stages the call fails. *)
Theorem pipelines_keep_their_stages (w : World) (args : JsVal) (d : Rec)
    (rows : list JsVal) (log : list Call) :
  configured w →
  answer w (GET "/crm/v3/pipelines/deals") = inr (JObj d) →
  d !! "results" = Some (JArr rows) →
  (Forall staged rows →
   toolResult w (JStr "hubspot_list_pipelines") args log
   = (inr (JArr (map pipelineOf rows)), log ++ [GET "/crm/v3/pipelines/deals"]))
  ∧ (∀ p rest, rows = p :: rest → nullish p = false → isArray (getProp p "stages") = false →
     ∃ e, toolResult w (JStr "hubspot_list_pipelines") args log
          = (inl e, log ++ [GET "/crm/v3/pipelines/deals"])).
Proof.
  intros Hc Ha Hd. enter_tool w. rewrite bind_hubspot by done.
  change (request "/crm/v3/pipelines/deals" "GET" None) with (GET "/crm/v3/pipelines/deals").
  rewrite Ha, bind_member. cbn [nullish]. rewrite (getProp_lookup _ _ _ Hd).
  cbn [arrayFor]. rewrite bind_ret. split.
  - intros Hl.
    assert (∀ log0,
              mapM (fun p =>
                      id <- member p "id" ;;
                      stageItems <- arrayFor "p.stages" "map" (getProp p "stages") ;;
                      stages <- mapM (fun s =>
                                        sid <- member s "id" ;;
                                        ret (JObj (obj [("id", sid);
                                                        ("label", getProp s "label");
                                                        ("displayOrder",
                                                         getProp s "displayOrder")])))
                                     stageItems ;;
                      ret (JObj (obj [("id", id); ("label", getProp p "label");
                                      ("stages", JArr stages)]))) rows log0
              = (inr (map pipelineOf rows), log0)) as Hm.
    { clear Hd. induction Hl as [|p l (Hp & Hs & Hst) _ IH]; intros log0; [done|].
      cbn [mapM map]. rewrite !bind_assoc, bind_member, Hp.
      unfold pipelineOf at 1. unfold stagesOf in *.
      destruct (getProp p "stages") as [| | | | |stages|]; try done.
      cbn [arrayFor]. rewrite bind_assoc, bind_ret, bind_assoc. unfold bind at 1.
      rewrite mapM_stages by done. rewrite bind_ret. unfold bind at 1. by rewrite IH. }
    unfold bind. by rewrite Hm.
  - intros p rest -> Hp Hs. cbn [mapM]. rewrite !bind_assoc, bind_member, Hp.
    rewrite bind_assoc.
    destruct (getProp p "stages") as [| | | | |stages|]; try done; by eexists.
Qed.

Lemma pipelines_keep_their_stages_witness :
  let w := sampleWorld pipelined in
  ∃ d rows,
    configured w
    ∧ answer w (GET "/crm/v3/pipelines/deals") = inr (JObj d)
    ∧ d !! "results" = Some (JArr rows)
    ∧ Forall staged rows
    ∧ toolResult w (JStr "hubspot_list_pipelines") (JObj ∅) []
      = (inr (JArr [JObj (obj [("id", JStr "default"); ("label", JStr "Sales");
                               ("stages",
                                JArr [JObj (obj [("id", JStr "open"); ("label", JStr "Open");
                                                 ("displayOrder", jnum 0)]);
                                      JObj (obj [("id", JStr "won"); ("label", JStr "Won");
                                                 ("displayOrder", jnum 1)])])])]),
         [GET "/crm/v3/pipelines/deals"]).
Proof.
  intros w. eexists _, _.
  assert (Hst : Forall staged
                  [JObj (obj [("id", JStr "default"); ("label", JStr "Sales");
                      ("displayOrder", jnum 0);
                      ("stages",
                       JArr [JObj (obj [("id", JStr "open"); ("label", JStr "Open");
                                        ("displayOrder", jnum 0);
                                        ("metadata", JObj ∅)]);
                             JObj (obj [("id", JStr "won"); ("label", JStr "Won");
                                        ("displayOrder", jnum 1)])])])]).
  { apply Forall_cons_2; [|apply Forall_nil_2]. split; [reflexivity|]. split; [reflexivity|].
    apply (bool_decide_unpack _). vm_compute. exact I. }
  split; [exact I|]. split; [reflexivity|]. split; [reflexivity|]. split; [exact Hst|].
  exact (proj1 (pipelines_keep_their_stages w (JObj ∅) _ _ [] I eq_refl eq_refl) Hst).
Defined.

(** ** What the composite creates send *)






